(** * jrnl: entries and exporters

    A shallow embedding of [jrnl/Entry.py] and [jrnl/exporters.py].

    Python text is a list of characters ([str]); Python integers are [Z];
    dictionaries with string keys are [gmap]s; sets are [gset]s.
    What the two files take from elsewhere (the Unicode tables behind
    [\s], [\w] and [lower()], [strftime], [textwrap.fill], [json.dumps],
    the [Todo] class, [slugify], [Journal.pprint], the file system) is a
    parameter of the development. *)

From Stdlib Require Import ZArith Ascii String List Lia Bool DecimalString.
From stdpp Require Import base option list strings gmap sorting.

Open Scope list_scope.
Open Scope Z_scope.

(** ** Text *)

Abbreviation str := (list ascii).

(** A Python string literal. *)
Definition py (s : string) : str := list_ascii_of_string s.

Definition SP : ascii := " "%char.
Definition NL : ascii := "010"%char.

(** [c in chars] *)
Definition char_in (c : ascii) (chars : str) : bool :=
  existsb (Ascii.eqb c) chars.

(** [s.rstrip(chars)] *)
Fixpoint rstrip (chars : str) (s : str) : str :=
  match s with
  | [] => []
  | c :: r =>
      match rstrip chars r with
      | [] => if char_in c chars then [] else [c]
      | r' => c :: r'
      end
  end.

(** [sep.join(l)] *)
Fixpoint join (sep : str) (l : list str) : str :=
  match l with
  | [] => []
  | [x] => x
  | x :: r => x ++ sep ++ join sep r
  end.

(** [c * n] for a one-character string [c] *)
Definition times (c : ascii) (n : nat) : str := replicate n c.

Fixpoint takewhile {A} (p : A -> bool) (l : list A) : list A :=
  match l with
  | [] => []
  | x :: r => if p x then x :: takewhile p r else []
  end.

(** [len(s)] *)
Definition len (s : str) : Z := Z.of_nat (length s).

(** ** Regular expressions of the shape [\s([...][-+*#/\w]+)]

    [Entry.tag_regex] splices [tagsymbols] between the brackets of a
    character set.  [parse_set] reads the spliced text the way the [re]
    parser reads a set: a leading [^] negates, [a-b] is a range, a [-]
    right before the closing bracket and a [\]] right after the opening
    one are literal. *)

Inductive set_item :=
| Lit (c : ascii)
| Range (lo hi : ascii).

Record charset := { negated : bool; items : list set_item }.

Inductive parsed (A : Type) :=
| Parsed (a : A)   (* the pattern has the intended shape *)
| BadRange         (* re.compile raises: bad character range *)
| Unfollowed.      (* the set ends early or holds an escape: another
                      pattern altogether, not followed here *)
Arguments Parsed {A} a.
Arguments BadRange {A}.
Arguments Unfollowed {A}.

Definition code (c : ascii) : N := N_of_ascii c.

Definition and_then (i : set_item) (p : parsed (list set_item)) : parsed (list set_item) :=
  match p with
  | Parsed l => Parsed (i :: l)
  | other => other
  end.

(** The items of the set, read from the spliced text [s]; the closing
    bracket of the template comes right after [s].  [first] says that no
    item has been read yet. *)
Fixpoint parse_items (first : bool) (s : str) {struct s} : parsed (list set_item) :=
  match s with
  | [] => if first then Unfollowed else Parsed []
  | c :: r =>
      if Ascii.eqb c "\"%char then Unfollowed
      else if Ascii.eqb c "]"%char && negb first then Unfollowed
      else
        match r with
        | [] => Parsed [Lit c]
        | d :: r' =>
            if Ascii.eqb d "-"%char then
              match r' with
              | [] => Parsed [Lit c; Lit "-"%char]
              | h :: r'' =>
                  if Ascii.eqb h "]"%char || Ascii.eqb h "\"%char then Unfollowed
                  else if (code h <? code c)%N then BadRange
                  else and_then (Range c h) (parse_items false r'')
              end
            else and_then (Lit c) (parse_items false r)
        end
  end.

(** The set [[tagsymbols]] of the compiled pattern. *)
Definition parse_set (s : str) : parsed charset :=
  let '(neg, body) :=
    match s with
    | c :: r => if Ascii.eqb c "^"%char then (true, r) else (false, s)
    | [] => (false, s)
    end in
  match parse_items true body with
  | Parsed l => Parsed {| negated := neg; items := l |}
  | BadRange => BadRange
  | Unfollowed => Unfollowed
  end.

Definition item_matches (i : set_item) (c : ascii) : bool :=
  match i with
  | Lit a => Ascii.eqb a c
  | Range lo hi => (code lo <=? code c)%N && (code c <=? code hi)%N
  end.

Definition set_matches (cs : charset) (c : ascii) : bool :=
  xorb (negated cs) (existsb (fun i => item_matches i c) (items cs)).

(** ** Dates, JSON values, configuration *)

Record datetime := {
  year : Z; month : Z; day : Z; hour : Z; minute : Z; second : Z
}.

(** What [datetime] itself guarantees of the fields used here. *)
Definition valid_date (d : datetime) : Prop :=
  1 <= year d <= 9999 /\ 1 <= month d <= 12.

#[global] Instance datetime_eq_dec : EqDecision datetime.
Proof. solve_decision. Defined.

#[warnings="-register-all"]
Inductive json :=
| JInt (z : Z)
| JStr (s : str)
| JBool (b : bool)
| JList (l : list json)
| JDict (d : gmap str json).

(** [journal.config], as far as the two files read it. *)
Record Config := {
  tagsymbols : str;
  timeformat : str;
  linewrap : Z          (* 0 for a falsy value: no wrapping *)
}.

(** The keyword arguments [Entry.pprint] passes to [textwrap.fill]; the
    others keep their defaults. *)
Record wrap_options := {
  width : Z;
  initial_indent : str;
  subsequent_indent : str;
  drop_whitespace : bool
}.

(** [str(n)] for an integer. *)
Definition str_of_Z (n : Z) : str :=
  py (NilZero.string_of_int (Z.to_int n)).

(** [posixpath.join(a, b)] *)
Definition path_join (a b : str) : str :=
  match b with
  | "/"%char :: _ => b
  | _ =>
      match last a with
      | None => b
      | Some "/"%char => a ++ b
      | Some _ => a ++ py "/" ++ b
      end
  end.

(** [s.splitlines()]: the line boundaries of the 8-bit range; a carriage
    return followed by a line feed is one boundary. *)
Definition is_linebreak (c : ascii) : bool :=
  char_in c ["010"; "011"; "012"; "013"; "028"; "029"; "030"; "133"]%char.

Fixpoint splitlines_from (cur : str) (s : str) : list str :=
  match s with
  | [] => match cur with [] => [] | _ => [reverse cur] end
  | c :: r =>
      if is_linebreak c then
        match c, r with
        | "013"%char, "010"%char :: r' => reverse cur :: splitlines_from [] r'
        | _, _ => reverse cur :: splitlines_from [] r
        end
      else splitlines_from (c :: cur) r
  end.

Definition splitlines (s : str) : list str := splitlines_from [] s.

(** [s.ljust(n)], the effect of the format field [{0:20}] on a string. *)
Definition ljust (n : nat) (s : str) : str :=
  s ++ times SP (n - length s).

(** Tuples [(count, tag)] compare first by count, then by tag, character
    code by character code. *)
Fixpoint str_leb (a b : str) : bool :=
  match a, b with
  | [], _ => true
  | _ :: _, [] => false
  | x :: a', y :: b' =>
      if (code x <? code y)%N then true
      else if (code y <? code x)%N then false
      else str_leb a' b'
  end.

Definition tuple_leb (a b : Z * str) : bool :=
  if a.1 <? b.1 then true
  else if b.1 <? a.1 then false
  else str_leb a.2 b.2.

(** [sorted(l, reverse=True)] *)
Definition sorted_reverse (l : list (Z * str)) : list (Z * str) :=
  merge_sort (fun a b => Is_true (tuple_leb b a)) l.

(** [min(l)] for a non-empty [l] *)
Definition tuple_min (x : Z * str) (l : list (Z * str)) : Z * str :=
  foldl (fun m y => if tuple_leb m y then m else y) x l.

(** [l.count(x)] *)
Definition count (x : str) (l : list str) : Z :=
  Z.of_nat (length (filter (fun y => y = x) l)).

(** ** The file system, as far as [export] touches it *)

Record filesystem := {
  dirs : gset str;            (* the existing directories *)
  files : gmap str str;       (* the regular files and what they hold *)
  denied : gmap str str       (* paths that cannot be opened for writing,
                                 each with the message of the OS *)
}.

Inductive exn :=
| IOError (filename strerror : str)
| UnboundLocalError.

(** [os.path.isdir(p)] *)
Definition isdir (fs : filesystem) (p : str) : bool :=
  bool_decide (p ∈ dirs fs).

(** [with codecs.open(p, "w", "utf-8") as f: f.write(content)] *)
Definition write_file (fs : filesystem) (p content : str) : exn + filesystem :=
  if isdir fs p then inl (IOError p (py "Is a directory"))
  else
    match denied fs !! p with
    | Some msg => inl (IOError p msg)
    | None =>
        inr {| dirs := dirs fs; files := <[p := content]> (files fs);
               denied := denied fs |}
    end.

(** Truth value of an optional string argument: [None] and the empty
    string are false. *)
Definition truthy (o : option str) : bool :=
  match o with
  | Some (_ :: _) => true
  | _ => false
  end.

(** ** The tables of the 7-bit range

    Used to run the definitions below on concrete text. *)

Definition between (lo hi c : ascii) : bool :=
  (code lo <=? code c)%N && (code c <=? code hi)%N.

Definition ascii_isspace (c : ascii) : bool :=
  between "009" "013" c || between "028" "032" c.

Definition ascii_isalnum (c : ascii) : bool :=
  between "0" "9" c || between "A" "Z" c || between "a" "z" c.

Definition ascii_lower (c : ascii) : ascii :=
  if between "A" "Z" c then ascii_of_N (code c + 32) else c.

(** The full month names of the C locale, which [%B] prints. *)
Definition month_name (m : Z) : str :=
  match m with
  | 1 => py "January" | 2 => py "February" | 3 => py "March"
  | 4 => py "April" | 5 => py "May" | 6 => py "June"
  | 7 => py "July" | 8 => py "August" | 9 => py "September"
  | 10 => py "October" | 11 => py "November" | 12 => py "December"
  | _ => []
  end.

(** [strftime] of the C locale for the directives that the two files
    use, and a slug and a one-line [fill] for 7-bit text. *)
Definition pad2 (n : Z) : str :=
  if n <? 10 then "0"%char :: str_of_Z n else str_of_Z n.

Definition directive (c : ascii) (d : datetime) : str :=
  if Ascii.eqb c "Y" then str_of_Z (year d)
  else if Ascii.eqb c "m" then pad2 (month d)
  else if Ascii.eqb c "d" then pad2 (day d)
  else if Ascii.eqb c "H" then pad2 (hour d)
  else if Ascii.eqb c "M" then pad2 (minute d)
  else if Ascii.eqb c "B" then month_name (month d)
  else if Ascii.eqb c "%" then ["%"%char]
  else ["%"%char; c].

Fixpoint strftime_C (fmt : str) (d : datetime) : str :=
  match fmt with
  | [] => []
  | c :: r =>
      if Ascii.eqb c "%" then
        match r with
        | [] => [c]
        | x :: r' => directive x d ++ strftime_C r' d
        end
      else c :: strftime_C r d
  end.

Definition slug_char (c : ascii) : ascii :=
  if ascii_isalnum c then ascii_lower c else "-"%char.

Definition slugify_ascii (s : str) : str := map slug_char s.

Definition fill_unbroken (o : wrap_options) (text : str) : str :=
  match text with
  | [] => []
  | _ => initial_indent o ++ text
  end.

(** A configuration, dates, a file system and todos that are a mere
    mark of completion, to run the definitions on. *)
Definition sample_config : Config :=
  {| tagsymbols := py "@"; timeformat := py "%Y-%m-%d %H:%M"; linewrap := 0 |}.

Definition sample_date (y m d : Z) : datetime :=
  {| year := y; month := m; day := d; hour := 9; minute := 30; second := 0 |}.

Definition sample_fs : filesystem :=
  {| dirs := {[py "out"]};
     files := ∅;
     denied := {[py "out/2023-01-20_locked.md" := py "Permission denied"]} |}.

Definition item_format (complete : bool) : str :=
  if complete then py "[x] done" else py "[ ] open".

Definition no_todos (_ : Config) (_ : datetime) (_ _ : str) (_ : list str)
    : list bool := [].

(** [sub in s] *)
Definition contains (sub s : str) : Prop :=
  exists pre post, s = pre ++ sub ++ post.

(** The format names that [export] knows. *)
Definition formats : list str :=
  [py "json"; py "txt"; py "text"; py "md"; py "markdown"].

(** The characters of the literal that [rstrip] is given: a line feed
    and a space. *)
Definition nl_sp : str := [NL; SP].

(** ** The program *)

Section Jrnl.

(** The Unicode tables: [\s], [unicode.isalnum] (a [\w] character is an
    alphanumeric one or the underscore) and [unicode.lower], character
    by character. *)
Variable isspace : ascii -> bool.
Variable isalnum : ascii -> bool.
Variable lower : ascii -> ascii.

(** [datetime.strftime], [textwrap.fill], [json.dumps(_, indent=2)]. *)
Variable strftime : str -> datetime -> str.
Variable fill : wrap_options -> str -> str.
Variable json_dumps : json -> str.

(** [jrnl.Todo]: the class, its three members read here and
    [Todo.parse_entry_todos], which reads the title and body of the
    entry under construction. *)
Variable Todo : Type.
Variable is_complete : Todo -> bool.
Variable to_item_format : Todo -> str.
Variable todo_to_dict : Todo -> json.
Variable parse_entry_todos : Config -> datetime -> str -> str -> list str -> list Todo.

(** [jrnl.util.u] and [jrnl.util.slugify]. *)
Variable u : str -> str.
Variable slugify : str -> str.

(** *** Entry.py *)

Record Entry := {
  journal_config : Config;     (* self.journal.config *)
  date : datetime;
  title : str;
  body : str;
  tags : list str;
  todos : list Todo;
  starred : bool;
  modified : bool
}.

Definition isword (c : ascii) : bool :=
  isalnum c || Ascii.eqb c "_"%char.

(** The set [[-+*#/\w]] *)
Definition tagchar (c : ascii) : bool :=
  char_in c (py "-+*#/") || isword c.

(** One attempt of [\s([...][-+*#/\w]+)] at the head of [text]; the
    result is the group.  Nothing follows the greedy [+], so it takes
    the whole run. *)
Definition match_here (cs : charset) (text : str) : option str :=
  match text with
  | w :: s :: rest =>
      if isspace w && set_matches cs s then
        match takewhile tagchar rest with
        | [] => None
        | run => Some (s :: run)
        end
      else None
  | _ => None
  end.

(** [re.findall]: matches are tried from left to right; after a match
    the search resumes behind it ([skip] characters further), otherwise
    at the next character. *)
Fixpoint scan (cs : charset) (skip : nat) (text : str) : list str :=
  match text with
  | [] => []
  | _ :: rest =>
      match skip with
      | S k => scan cs k rest
      | O =>
          match match_here cs text with
          | Some tok => tok :: scan cs (length tok) rest
          | None => scan cs 0 rest
          end
      end
  end.

Definition findall (cs : charset) (text : str) : list str := scan cs 0 text.

Definition get_fulltext (title body : str) (lower_ : bool) : str :=
  let ret := py " " ++ join (py " ") [title; body] in
  if lower_ then map lower ret else ret.

Definition tag_regex (tagsymbols : str) : parsed charset :=
  parse_set tagsymbols.

(** The list stored in [self.tags]. *)
Definition parse_tags (cfg : Config) (title body : str) : parsed (list str) :=
  let fulltext := get_fulltext title body true in
  match tag_regex (tagsymbols cfg) with
  | Parsed cs => Parsed (findall cs fulltext)
  | BadRange => BadRange
  | Unfollowed => Unfollowed
  end.

(** [Entry.__init__]; [now] is what [datetime.now()] reads. *)
Definition Entry_init (cfg : Config) (now : datetime) (date : option datetime)
    (title body : str) (starred : bool) : parsed Entry :=
  let date := default now date in
  let title := rstrip nl_sp title in
  let body := rstrip nl_sp body in
  match parse_tags cfg title body with
  | Parsed tags =>
      Parsed {| journal_config := cfg; date := date; title := title;
                body := body; tags := tags;
                todos := parse_entry_todos cfg date title body tags;
                starred := starred; modified := false |}
  | BadRange => BadRange
  | Unfollowed => Unfollowed
  end.

(** [Entry.__unicode__] *)
Definition __unicode__ (e : Entry) : str :=
  let date_str := strftime (timeformat (journal_config e)) (date e) in
  let title := date_str ++ py " " ++ rstrip nl_sp (title e) in
  let title := if starred e then title ++ py " *" else title in
  title
    ++ (match rstrip nl_sp (body e) with [] => [] | _ => [NL] end)
    ++ rstrip nl_sp (body e) ++ [NL].

Definition title_options (w : Z) : wrap_options :=
  {| width := w; initial_indent := []; subsequent_indent := [];
     drop_whitespace := true |}.

Definition body_options (w : Z) : wrap_options :=
  {| width := w; initial_indent := py "| "; subsequent_indent := py "| ";
     drop_whitespace := false |}.

(** The test of line 78. *)
Definition has_body (e : Entry) : bool :=
  (20 <? len (body e)) || negb (forallb (fun c => char_in c [SP; NL]) (body e)).

Definition pprint_title (e : Entry) (short : bool) : str :=
  let date_str := strftime (timeformat (journal_config e)) (date e) in
  let w := linewrap (journal_config e) in
  if negb short && negb (w =? 0) then
    fill (title_options w) (date_str ++ py " " ++ title e)
  else date_str ++ py " " ++ rstrip nl_sp (title e).

Definition pprint_body (e : Entry) (short : bool) : str :=
  let w := linewrap (journal_config e) in
  if negb short && negb (w =? 0) then
    join [NL]
      (map (fun line =>
              fill (body_options w)
                   (if len line =? 0 then line ++ py " " else line))
           (splitlines (rstrip [SP; NL] (body e))))
  else rstrip nl_sp (body e).

(** [Entry.pprint] *)
Definition pprint (e : Entry) (short : bool) : str :=
  let title := pprint_title e short in
  let body := pprint_body e short in
  if short then title
  else
    title ++ (if has_body e then [NL] else [])
          ++ (if has_body e then body else []) ++ [NL].

(** [Entry.to_dict] *)
Definition to_dict (e : Entry) : gmap str json :=
  list_to_map [
    (py "title", JStr (title e));
    (py "body", JStr (body e));
    (py "date", JStr (strftime (py "%Y-%m-%d") (date e)));
    (py "time", JStr (strftime (py "%H:%M") (date e)));
    (py "todos", JList (map todo_to_dict (todos e)));
    (py "starred", JBool (starred e))
  ].

(** [Entry.to_md] *)
Definition Entry_to_md (e : Entry) : str :=
  let date_str := strftime (timeformat (journal_config e)) (date e) in
  let body_wrapper := match body e with [] => [] | _ => [NL; NL] end in
  let body := body_wrapper ++ body e in
  py "###" ++ py " " ++ date_str ++ py ", " ++ title e ++ py " " ++ body
    ++ py " " ++ [NL].

(** [s.lstrip()], [s.rstrip()] and [s.strip()]: without an argument
    they take away the whitespace of the Unicode table. *)
Fixpoint lstrip_ws (s : str) : str :=
  match s with
  | [] => []
  | c :: r => if isspace c then lstrip_ws r else s
  end.

Fixpoint rstrip_ws (s : str) : str :=
  match s with
  | [] => []
  | c :: r =>
      match rstrip_ws r with
      | [] => if isspace c then [] else [c]
      | r' => c :: r'
      end
  end.

Definition strip (s : str) : str := rstrip_ws (lstrip_ws s).

(** [Entry.__repr__] *)
Definition __repr__ (e : Entry) : str :=
  py "<Entry '" ++ strip (title e) ++ py "' on "
    ++ strftime (py "%Y-%m-%d %H:%M") (date e) ++ py ">".

(** What [__eq__] may be handed: an entry or a value of another class. *)
Inductive object :=
| AnEntry (e : Entry)
| Other.

(** [Entry.__eq__] *)
Definition __eq__ (self : Entry) (other : object) : bool :=
  match other with
  | Other => false
  | AnEntry other =>
      if negb (bool_decide (strip (title self) = strip (title other)))
         || negb (bool_decide (rstrip_ws (body self) = rstrip_ws (body other)))
         || negb (bool_decide (date self = date other))
         || negb (bool_decide (starred self = starred other))
      then false
      else true
  end.

(** [Entry.__ne__] *)
Definition __ne__ (self : Entry) (other : object) : bool :=
  negb (__eq__ self other).

(** *** exporters.py *)

Record Journal := {
  entries : list Entry;
  config : Config
}.

(** [Journal.pprint], which [to_txt] hands over to. *)
Variable Journal_pprint : Journal -> str.

Definition get_tags_count (journal : Journal) : gset (Z * str) :=
  let tags :=
    concat (map (fun entry => elements (list_to_set (tags entry) : gset str))
                (entries journal)) in
  list_to_set (map (fun tag => (count tag tags, tag)) tags).

Definition tag_line (x : Z * str) : str :=
  ljust 20 x.2 ++ py " : " ++ str_of_Z x.1.

Definition to_tag_list (journal : Journal) : str :=
  match elements (get_tags_count journal) with
  | [] => py "[No tags found in journal.]"
  | x :: l =>
      let '(tag_counts, result) :=
        if (tuple_min x l).1 =? 0
        then (filter (fun x => 1 < x.1) (x :: l),
              py "[Removed tags that appear only once.]" ++ [NL])
        else (x :: l, []) in
      result ++ join [NL] (map tag_line (sorted_reverse tag_counts))
  end.

Definition get_todos (journal : Journal) : list Todo :=
  concat (map todos (entries journal)).

Definition appendable_header (text : str) : str :=
  let separator := times "="%char (length text) in
  separator ++ [NL] ++ text ++ [NL] ++ separator ++ [NL].

Definition appendable_todo_list (todo_list : list Todo) : str :=
  join [NL] (map to_item_format todo_list).

Definition to_todo_list (journal : Journal) : str :=
  match get_todos journal with
  | [] => py "[No todos found in journal.]"
  | todos =>
      let pending_todos := filter (fun t => is_complete t = false) todos in
      let completed_todos := filter (fun t => is_complete t = true) todos in
      appendable_header (py "Pending")
        ++ appendable_todo_list pending_todos
        ++ [NL; NL] ++ appendable_header (py "Completed")
        ++ appendable_todo_list completed_todos
  end.

(** The loop of [to_json]: [entry_id] is the counter. *)
Fixpoint entry_dicts (entry_id : Z) (es : list Entry) : list json :=
  match es with
  | [] => []
  | entry :: r =>
      JDict (<[py "id" := JInt entry_id]> (to_dict entry))
        :: entry_dicts (entry_id + 1) r
  end.

(** [dict(pairs)]: a later pair replaces an earlier one with its key. *)
Definition dict_of (pairs : list (str * json)) : gmap str json :=
  foldl (fun d kv => <[kv.1 := kv.2]> d) ∅ pairs.

(** The dictionary that [to_json] serialises. *)
Definition to_json_result (journal : Journal) : gmap str json :=
  let tags := get_tags_count journal in
  let todos := get_todos journal in
  list_to_map [
    (py "tags", JDict (dict_of (map (fun ct : Z * str => (ct.2, JInt ct.1)) (elements tags))));
    (py "todos", JList (map todo_to_dict todos));
    (py "entries", JList (entry_dicts 1 (entries journal)))
  ].

Definition to_json (journal : Journal) : str :=
  json_dumps (JDict (to_json_result journal)).

(** One round of the loop of [to_md]: the state is [(year, month, out)]. *)
Definition to_md_step (st : Z * Z * list str) (e : Entry) : Z * Z * list str :=
  let '(y, m, out) := st in
  let '(y, out) :=
    if negb (year (date e) =? y)
    then (year (date e),
          out ++ [str_of_Z (year (date e));
                  times "="%char (length (str_of_Z (year (date e)))) ++ [NL]])
    else (y, out) in
  let '(m, out) :=
    if negb (month (date e) =? m)
    then (month (date e),
          out ++ [strftime (py "%B") (date e);
                  times "-"%char (length (strftime (py "%B") (date e))) ++ [NL]])
    else (m, out) in
  (y, m, out ++ [Entry_to_md e]).

Definition to_md (journal : Journal) : str :=
  join [NL] (foldl to_md_step (-1, -1, []) (entries journal)).2.

Definition to_txt (journal : Journal) : str := Journal_pprint journal.

Definition make_filename (e : Entry) (format : str) : str :=
  strftime (py "%Y-%m-%d_" ++ slugify (u (title e)) ++ py "." ++ format) (date e).

(** The three branches that bind [content]; [None] when none does. *)
Definition file_content (e : Entry) (format : str) : option str :=
  if bool_decide (format = py "json")
  then Some (json_dumps (JDict (to_dict e)) ++ [NL])
  else if bool_decide (format ∈ [py "md"; py "markdown"])
  then Some (Entry_to_md e)
  else if bool_decide (format ∈ [py "txt"; py "text"])
  then Some (__unicode__ e)
  else None.

Fixpoint write_files_loop (fs : filesystem) (path format : str) (es : list Entry)
    : filesystem * option exn :=
  match es with
  | [] => (fs, None)
  | e :: r =>
      let full_path := path_join path (make_filename e format) in
      match write_file fs full_path (default [] (file_content e format)) with
      | inl x => (fs, Some x)
      | inr fs' =>
          match file_content e format with
          | None => (fs', Some UnboundLocalError)
          | Some _ => write_files_loop fs' path format r
          end
      end
  end.

Definition write_files (journal : Journal) (path format : str) (fs : filesystem)
    : filesystem * (exn + str) :=
  match write_files_loop fs path format (entries journal) with
  | (fs', Some x) => (fs', inl x)
  | (fs', None) =>
      (fs', inr (py "[Journal exported individual files in " ++ path ++ py "]"))
  end.

Definition maps (format : str) : option (Journal -> str) :=
  if bool_decide (format = py "json") then Some to_json
  else if bool_decide (format = py "txt") then Some to_txt
  else if bool_decide (format = py "text") then Some to_txt
  else if bool_decide (format = py "md") then Some to_md
  else if bool_decide (format = py "markdown") then Some to_md
  else None.

Definition export (journal : Journal) (format : str) (output : option str)
    (fs : filesystem) : filesystem * (exn + str) :=
  match maps format with
  | None =>
      (fs, inr (py "[ERROR: can't export to '" ++ format
                  ++ py "'. Valid options are 'md', 'txt', and 'json']"))
  | Some to_format =>
      let out := default [] output in
      if truthy output && isdir fs out
      then write_files journal out format fs
      else
        let content := to_format journal in
        if truthy output then
          match write_file fs out content with
          | inr fs' => (fs', inr (py "[Journal exported to " ++ out ++ py "]"))
          | inl (IOError filename strerror) =>
              (fs, inr (py "[ERROR: " ++ filename ++ py " " ++ strerror ++ py "]"))
          | inl x => (fs, inl x)
          end
        else (fs, inr content)
  end.

(** *** The tags of a text, position by position

    What section 4.1 of the specification asks for: the token at
    position [i + 1] counts when the character at [i] is a whitespace,
    the one at [i + 1] is one of the symbols and at least one tag
    character follows; the token runs as far as tag characters go. *)

Definition tag_at (symbols : str) (text : str) (i : nat) : option str :=
  match text !! i, text !! S i with
  | Some w, Some s =>
      if isspace w && char_in s symbols then
        match takewhile tagchar (drop (S (S i)) text) with
        | [] => None
        | run => Some (s :: run)
        end
      else None
  | _, _ => None
  end.

Definition spec_tags (symbols : str) (text : str) : list str :=
  omap (tag_at symbols text) (seq 0 (length text)).

(** The matches of every suffix of the text, overlapping or not. *)
Fixpoint all_starts (cs : charset) (text : str) : list str :=
  match text with
  | [] => []
  | _ :: rest =>
      match match_here cs text with
      | Some tok => tok :: all_starts cs rest
      | None => all_starts cs rest
      end
  end.

(** Symbols that stand for themselves between the brackets: none of
    [^], [-], [\]] and the backslash. *)
Definition plain (c : ascii) : bool :=
  negb (char_in c ["^"; "-"; "]"; "\"]%char).

(** [s.split(the line feed)]: the lines of a rendering. *)
Fixpoint lines_of (s : str) : list str :=
  match s with
  | [] => [[]]
  | c :: r =>
      if Ascii.eqb c NL then [] :: lines_of r
      else
        match lines_of r with
        | [] => [[c]]
        | l :: ls => (c :: l) :: ls
        end
  end.

(** *** The headings of the Markdown export, entry by entry

    What section 4.3 of the specification asks for: before an entry comes
    a year heading when its year is not the year of the entry right
    before it ([prev]), and a month heading when its month is not the
    month of that entry; the first entry gets both. *)

Definition year_heading (prev : option Entry) (e : Entry) : list str :=
  let y := str_of_Z (year (date e)) in
  if match prev with
     | Some p => bool_decide (year (date p) <> year (date e))
     | None => true
     end
  then [y; times "="%char (length y) ++ [NL]]
  else [].

Definition month_heading (prev : option Entry) (e : Entry) : list str :=
  let b := strftime (py "%B") (date e) in
  if match prev with
     | Some p => bool_decide (month (date p) <> month (date e))
     | None => true
     end
  then [b; times "-"%char (length b) ++ [NL]]
  else [].

Fixpoint md_sections (prev : option Entry) (es : list Entry) : list str :=
  match es with
  | [] => []
  | e :: r =>
      year_heading prev e ++ month_heading prev e ++ [Entry_to_md e]
        ++ md_sections (Some e) r
  end.

(** The loop variables of [to_md] after [prev]. *)
Definition md_state (prev : option Entry) (y m : Z) : Prop :=
  match prev with
  | Some p => y = year (date p) /\ m = month (date p)
  | None => y = -1 /\ m = -1
  end.

(** The number of entries that hold [tag] at least once. *)
Definition entries_with (tag : str) (es : list Entry) : Z :=
  Z.of_nat (length (filter (fun e => tag ∈ tags e) es)).

(** The path of the file that [write_files] writes for an entry. *)
Definition entry_path (path format : str) (e : Entry) : str :=
  path_join path (make_filename e format).

(** The files after the entries [es] were written one after the other. *)
Definition written (path format : str) (es : list Entry) (m : gmap str str)
    : gmap str str :=
  foldl (fun m e => <[entry_path path format e :=
                        default [] (file_content e format)]> m) m es.

(** ** Proofs *)

(** *** Tag extraction *)

Lemma takewhile_split {A} (p : A -> bool) (l : list A) :
  exists rest, l = takewhile p l ++ rest.
Proof.
  induction l as [|x l [rest IH]]; simpl.
  - by exists [].
  - destruct (p x); [exists rest; simpl; congruence | by exists (x :: l)].
Qed.

Lemma takewhile_all {A} (p : A -> bool) (l : list A) :
  Forall (fun x => p x = true) (takewhile p l).
Proof.
  induction l as [|x l IH]; simpl; [constructor|].
  destruct (p x) eqn:E; by constructor.
Qed.

Lemma match_here_no_space cs c text :
  isspace c = false -> match_here cs (c :: text) = None.
Proof. intros E. destruct text; simpl; [done|]. by rewrite E. Qed.

Lemma scan_skip cs pre text :
  scan cs (length pre) (pre ++ text) = scan cs 0 text.
Proof. induction pre as [|c pre IH]; simpl; [by destruct text|done]. Qed.

Lemma all_starts_skip cs pre text :
  Forall (fun c => isspace c = false) pre ->
  all_starts cs (pre ++ text) = all_starts cs text.
Proof.
  induction 1 as [|c pre Hc _ IH]; [done|].
  change ((c :: pre) ++ text) with (c :: (pre ++ text)).
  cbn [all_starts]. by rewrite match_here_no_space.
Qed.

Lemma match_here_shape cs text tok :
  match_here cs text = Some tok ->
  exists w s run rest,
    text = w :: s :: run ++ rest /\ tok = s :: run /\
    set_matches cs s = true /\ Forall (fun c => tagchar c = true) run.
Proof.
  destruct text as [|w [|s rest]]; simpl; try done.
  destruct (isspace w); simpl; [|done].
  destruct (set_matches cs s) eqn:Es; [|done].
  destruct (takewhile_split tagchar rest) as [rest' Hr].
  pose proof (takewhile_all tagchar rest) as Hall.
  destruct (takewhile tagchar rest) as [|x run] eqn:Et; [done|].
  intros [= <-]. exists w, s, (x :: run), rest'.
  split; [by rewrite Hr at 1|done].
Qed.

(** With no whitespace among the symbols or the tag characters, a match
    never hides the start of another one: resuming behind a match
    loses nothing. *)
Lemma scan_all_starts cs :
  (forall c, tagchar c = true -> isspace c = false) ->
  (forall c, set_matches cs c = true -> isspace c = false) ->
  forall text, scan cs 0 text = all_starts cs text.
Proof.
  intros Htag Hsym text.
  remember (length text) as n eqn:Hn. revert text Hn.
  induction n as [n IH] using lt_wf_ind. intros text ->.
  destruct text as [|w rest]; [done|].
  cbn [scan all_starts].
  destruct (match_here cs (w :: rest)) as [tok|] eqn:Em.
  - f_equal.
    destruct (match_here_shape _ _ _ Em) as (w' & s & run & rest' & Ht & -> & Hs & Hrun).
    injection Ht as -> ->.
    change (s :: run ++ rest') with ((s :: run) ++ rest').
    rewrite scan_skip, all_starts_skip.
    + eapply IH; [|reflexivity]. simpl. rewrite length_app. lia.
    + constructor; [by apply Hsym|].
      eapply Forall_impl; [exact Hrun|]. intros c Hc. by apply Htag.
  - eapply IH; [|reflexivity]. simpl. lia.
Qed.

Lemma omap_seq_shift {A} (f : nat -> option A) (a n : nat) :
  omap f (seq (S a) n) = omap (fun i => f (S i)) (seq a n).
Proof.
  revert a. induction n as [|n IH]; intros a; [done|].
  cbn [seq]. cbn [omap list_omap]. by rewrite IH.
Qed.

Lemma all_starts_positions cs text :
  all_starts cs text =
  omap (fun i => match_here cs (drop i text)) (seq 0 (length text)).
Proof.
  induction text as [|c text IH]; [done|].
  cbn [length seq]. cbn [omap list_omap]. rewrite omap_seq_shift.
  cbn [all_starts drop]. rewrite IH.
  by destruct (match_here cs (c :: text)).
Qed.

Lemma tag_at_match_here cs symbols text i :
  (forall c, set_matches cs c = char_in c symbols) ->
  tag_at symbols text i = match_here cs (drop i text).
Proof.
  intros Hcs. unfold tag_at.
  destruct (text !! i) as [w|] eqn:Ew.
  - rewrite (drop_S _ _ _ Ew).
    destruct (text !! S i) as [s|] eqn:Es.
    + rewrite (drop_S _ _ _ Es). simpl. by rewrite Hcs.
    + apply lookup_ge_None in Es. by rewrite (drop_ge _ _ Es).
  - apply lookup_ge_None in Ew. by rewrite (drop_ge _ _ Ew).
Qed.

Lemma findall_spec_tags cs symbols text :
  (forall c, set_matches cs c = char_in c symbols) ->
  (forall c, tagchar c = true -> isspace c = false) ->
  (forall c, char_in c symbols = true -> isspace c = false) ->
  findall cs text = spec_tags symbols text.
Proof.
  intros Hcs Htag Hsym. unfold findall, spec_tags.
  rewrite scan_all_starts; [|done|by intros c; rewrite Hcs; apply Hsym].
  rewrite all_starts_positions.
  induction (seq 0 (length text)) as [|i l IH]; [done|].
  cbn [omap list_omap]. by rewrite IH, (tag_at_match_here cs symbols).
Qed.

Lemma parse_items_plain first symbols :
  symbols <> [] -> forallb plain symbols = true ->
  exists l, parse_items first symbols = Parsed l /\
    forall c, existsb (fun i => item_matches i c) l = char_in c symbols.
Proof.
  revert first. induction symbols as [|a r IH]; intros first Hne Hp; [done|].
  cbn [forallb] in Hp. apply andb_prop in Hp as [Ha Hr].
  assert (Ascii.eqb a "\"%char = false /\ Ascii.eqb a "]"%char = false) as [E1 E2].
  { unfold plain, char_in in Ha. cbn [existsb] in Ha.
    rewrite !negb_orb in Ha.
    destruct (Ascii.eqb a "\"), (Ascii.eqb a "]"); simpl in Ha;
      rewrite ?andb_false_r in Ha; done. }
  cbn [parse_items]. rewrite E1, E2. cbn [andb].
  destruct r as [|d r']; [exists [Lit a]; split; [done|] |].
  - intros c. simpl. by rewrite Ascii.eqb_sym.
  - assert (Ascii.eqb d "-"%char = false) as E3.
    { cbn [forallb] in Hr. apply andb_prop in Hr as [Hd _].
      unfold plain, char_in in Hd. cbn [existsb] in Hd.
      rewrite !negb_orb in Hd.
      destruct (Ascii.eqb d "-"); [|done].
      simpl in Hd. by rewrite andb_false_r in Hd. }
    rewrite E3.
    destruct (IH false) as (l & -> & Hl); [done|done|].
    exists (Lit a :: l). split; [done|].
    intros c. cbn [existsb item_matches]. rewrite Hl.
    unfold char_in. cbn [existsb]. by rewrite (Ascii.eqb_sym a c).
Qed.

Lemma plain_symbols_denote symbols :
  symbols <> [] -> forallb plain symbols = true ->
  exists cs, tag_regex symbols = Parsed cs /\
    forall c, set_matches cs c = char_in c symbols.
Proof.
  intros Hne Hp. unfold tag_regex, parse_set.
  destruct symbols as [|a r]; [done|].
  assert (Ascii.eqb a "^"%char = false) as ->.
  { cbn [forallb] in Hp. apply andb_prop in Hp as [Ha _].
    unfold plain, char_in in Ha. cbn [existsb] in Ha.
    by destruct (Ascii.eqb a "^"). }
  destruct (parse_items_plain true (a :: r) Hne Hp) as (l & -> & Hl).
  eexists. split; [done|]. intros c. unfold set_matches. simpl. apply Hl.
Qed.

Lemma parse_tags_empty cfg cs :
  tag_regex (tagsymbols cfg) = Parsed cs -> parse_tags cfg [] [] = Parsed [].
Proof.
  intros E. unfold parse_tags. rewrite E. f_equal.
  unfold findall, get_fulltext. simpl.
  by destruct (isspace (lower " ") && set_matches cs (lower " ")).
Qed.

(** C1 (as amended).  When every character of [tagsymbols] stands for
    itself between the brackets of the pattern and none of them is a
    whitespace character, [parse_tags] stores exactly the tokens that the
    lower-cased text [" " + title + " " + body] holds: those that follow
    a whitespace character, begin with a symbol and go on with one or
    more tag characters, as far as these go, from left to right and with
    repetitions.  An empty title and body give no tag. *)
Theorem parse_tags_exact cfg title body cs :
  tag_regex (tagsymbols cfg) = Parsed cs ->
  (forall c, set_matches cs c = char_in c (tagsymbols cfg)) ->
  (forall c, tagchar c = true -> isspace c = false) ->
  (forall c, char_in c (tagsymbols cfg) = true -> isspace c = false) ->
  parse_tags cfg title body =
    Parsed (spec_tags (tagsymbols cfg)
              (map lower (py " " ++ title ++ py " " ++ body)))
  /\ parse_tags cfg [] [] = Parsed [].
Proof.
  intros E Hcs Htag Hsym. split; [|by eapply parse_tags_empty].
  unfold parse_tags. rewrite E. f_equal.
  rewrite (findall_spec_tags cs (tagsymbols cfg)) by done.
  unfold get_fulltext. by cbn [join].
Qed.

(** *** Canonical text *)

Lemma rstrip_last chars s :
  rstrip chars s <> [] ->
  exists c, last (rstrip chars s) = Some c /\ char_in c chars = false.
Proof.
  induction s as [|a s IH]; [done|]. cbn [rstrip].
  destruct (rstrip chars s) as [|b r] eqn:E.
  - destruct (char_in a chars) eqn:Ea; [done|]. intros _. by exists a.
  - intros _. destruct IH as (c & Hc & Hin); [done|].
    exists c. split; [|done]. by rewrite last_cons, Hc.
Qed.

Lemma rstrip_idem chars s : rstrip chars (rstrip chars s) = rstrip chars s.
Proof.
  induction s as [|a s IH]; [done|]. cbn [rstrip].
  destruct (rstrip chars s) as [|b r] eqn:E.
  - destruct (char_in a chars) eqn:Ea; [done|]. simpl. by rewrite Ea.
  - cbn [rstrip]. cbn [rstrip] in IH. by rewrite IH.
Qed.

Lemma rstrip_nil_iff chars s :
  rstrip chars s = [] <-> forallb (fun c => char_in c chars) s = true.
Proof.
  induction s as [|a s IH]; [done|]. cbn [rstrip forallb].
  destruct (rstrip chars s) as [|b r] eqn:E.
  - destruct (char_in a chars); simpl; [tauto|].
    split; [done|]. intros H; discriminate H.
  - split; [done|]. intros H. apply andb_prop in H as [_ H].
    apply IH in H. discriminate H.
Qed.

Lemma last_app_ne {A} (l1 l2 : list A) :
  l2 <> [] -> last (l1 ++ l2) = last l2.
Proof.
  intros H. destruct (last l2) as [x|] eqn:E.
  - by rewrite last_app, E.
  - apply last_None in E. done.
Qed.

(** What [Entry.__init__] stores is already stripped. *)
Lemma Entry_init_stripped cfg now d t b st e :
  Entry_init cfg now d t b st = Parsed e ->
  rstrip nl_sp (title e) = title e /\ rstrip nl_sp (body e) = body e.
Proof.
  unfold Entry_init. destruct (parse_tags _ _ _); [|done|done].
  intros [= <-]. simpl. by rewrite !rstrip_idem.
Qed.

(** C4.  The canonical text is the formatted date, a space and the
    stripped title, then [" *"] exactly when the entry is starred, then a
    line feed and the stripped body exactly when the stripped body is not
    empty, then one line feed, and no line feed comes right before that
    last one. *)
Theorem unicode_shape e :
  let head :=
    strftime (timeformat (journal_config e)) (date e) ++ py " "
      ++ rstrip nl_sp (title e) ++ (if starred e then py " *" else []) in
  let tail :=
    match rstrip nl_sp (body e) with
    | [] => []
    | b => NL :: b
    end in
  __unicode__ e = head ++ tail ++ [NL]
  /\ last (head ++ tail) <> Some NL.
Proof.
  intros head tail. split.
  - unfold __unicode__, head, tail.
    destruct (starred e), (rstrip nl_sp (body e)); simpl;
      repeat (rewrite <- app_assoc; simpl); rewrite ?app_nil_r; done.
  - unfold tail.
    destruct (rstrip nl_sp (body e)) as [|b r] eqn:Eb.
    + rewrite app_nil_r. unfold head.
      destruct (starred e).
      * rewrite !app_assoc. rewrite last_app_ne by done. done.
      * rewrite app_nil_r.
        destruct (rstrip nl_sp (title e)) as [|a t] eqn:Et.
        -- rewrite app_nil_r. rewrite last_app_ne by done. done.
        -- rewrite !app_assoc. rewrite last_app_ne by done.
           destruct (rstrip_last nl_sp (title e)) as (c & Hc & Hin);
             [by rewrite Et|].
           rewrite Et in Hc. rewrite Hc. intros [= ->]. done.
    + rewrite last_app_ne by done. rewrite last_cons.
      destruct (rstrip_last nl_sp (body e)) as (c & Hc & Hin);
        [by rewrite Eb|].
      rewrite Eb in Hc. rewrite Hc. intros [= ->]. done.
Qed.

(** *** Pretty-printing *)

Lemma forallb_false_iff {A} (p : A -> bool) (l : list A) :
  forallb p l = false <-> exists c, c ∈ l /\ p c = false.
Proof.
  induction l as [|x l IH]; simpl.
  - split; [done|]. intros (c & Hc & _). by apply elem_of_nil in Hc.
  - rewrite andb_false_iff, IH. split.
    + intros [H|(c & Hc & H)]; [exists x|exists c]; split; try done.
      * apply list_elem_of_here.
      * by apply list_elem_of_further.
    + intros (c & Hc & H). apply elem_of_cons in Hc as [->|Hc]; [by left|].
      right. by exists c.
Qed.

Lemma not_blank_iff c : char_in c [SP; NL] = false <-> c <> SP /\ c <> NL.
Proof.
  unfold char_in. cbn [existsb]. rewrite orb_false_r, orb_false_iff.
  by rewrite !Ascii.eqb_neq.
Qed.

Lemma has_body_iff e :
  has_body e = true <->
  20 < len (body e) \/ exists c, c ∈ body e /\ c <> SP /\ c <> NL.
Proof.
  unfold has_body. rewrite orb_true_iff, Z.ltb_lt, negb_true_iff.
  rewrite forallb_false_iff.
  split; (intros [H|(c & Hc & H)]; [by left|right; exists c; split; [done|]]);
    by apply not_blank_iff.
Qed.

(** C6.  The full rendering holds the separator and the body exactly
    when [has_body] is true, that is when the stored body is longer than
    20 characters or holds a character other than a space and a line
    feed; a body of two line feeds, two spaces and a line feed is left
    out; the short rendering is the date, a space and the title. *)
Theorem pprint_has_body e :
  (has_body e = true <->
     20 < len (body e) \/ exists c, c ∈ body e /\ c <> SP /\ c <> NL)
  /\ pprint e false =
       pprint_title e false
         ++ (if has_body e then NL :: pprint_body e false else []) ++ [NL]
  /\ (body e = [NL; NL; SP; SP; NL] ->
      pprint e false = pprint_title e false ++ [NL])
  /\ pprint e true =
       strftime (timeformat (journal_config e)) (date e) ++ py " "
         ++ rstrip nl_sp (title e).
Proof.
  split; [apply has_body_iff|].
  split; [unfold pprint; by destruct (has_body e)|].
  split; [|done].
  intros Hb. unfold pprint, has_body. by rewrite Hb.
Qed.

Lemma lines_of_nonempty s : lines_of s <> [].
Proof.
  destruct s as [|c r]; [done|]. simpl.
  destruct (Ascii.eqb c NL); [done|]. by destruct (lines_of r).
Qed.

Lemma lines_of_app_nl a b :
  lines_of (a ++ NL :: b) = lines_of a ++ lines_of b.
Proof.
  induction a as [|c a IH]; [done|].
  cbn [app lines_of]. destruct (Ascii.eqb c NL); [by rewrite IH|].
  rewrite IH. pose proof (lines_of_nonempty a) as Hne.
  by destruct (lines_of a).
Qed.

Lemma lines_of_join xs :
  xs <> [] -> lines_of (join [NL] xs) = concat (map lines_of xs).
Proof.
  induction xs as [|x xs IH]; [done|]. intros _.
  destruct xs as [|y xs].
  - simpl. by rewrite app_nil_r.
  - change (join [NL] (x :: y :: xs)) with (x ++ NL :: join [NL] (y :: xs)).
    rewrite lines_of_app_nl, IH by done. done.
Qed.

(** C5.  With a positive [linewrap], the full rendering wraps the date
    and title as one text to that width and wraps every line of the
    stripped body on its own, an empty line as a single space, with
    ["| "] as first and as subsequent indent and whitespace kept; so, as
    [textwrap.fill] starts every line it returns for a text that is not
    empty with the indent, every line of the rendered body starts with
    ["| "]. *)
Theorem pprint_wrapped e :
  0 < linewrap (journal_config e) ->
  (forall w text, text <> [] ->
     Forall (fun ln => py "| " `prefix_of` ln)
            (lines_of (fill (body_options w) text))) ->
  let w := linewrap (journal_config e) in
  let lines := splitlines (rstrip [SP; NL] (body e)) in
  pprint_title e false =
    fill (title_options w)
         (strftime (timeformat (journal_config e)) (date e) ++ py " " ++ title e)
  /\ pprint_body e false =
       join [NL]
         (map (fun line =>
                 fill {| width := w; initial_indent := py "| ";
                         subsequent_indent := py "| ";
                         drop_whitespace := false |}
                      (match line with [] => py " " | _ => line end))
              lines)
  /\ (lines <> [] ->
      Forall (fun ln => py "| " `prefix_of` ln) (lines_of (pprint_body e false))).
Proof.
  intros Hw Hfill w lines.
  assert (negb (linewrap (journal_config e) =? 0) = true) as Hnz.
  { apply negb_true_iff, Z.eqb_neq. lia. }
  assert (pprint_body e false =
          join [NL] (map (fun line => fill (body_options w)
                            (match line with [] => py " " | _ => line end)) lines)) as Hbody.
  { unfold pprint_body. rewrite Hnz. cbn [negb andb]. f_equal.
    apply map_ext. by intros [|c l]. }
  split; [unfold pprint_title; by rewrite Hnz|].
  split; [exact Hbody|].
  intros Hne. rewrite Hbody, lines_of_join.
  - apply Forall_concat, Forall_fmap, Forall_fmap, Forall_forall.
    intros [|c l] _; unfold compose; by apply Hfill.
  - by destruct lines.
Qed.

(** *** Markdown export *)

Lemma to_md_step_sections prev y m out e :
  md_state prev y m -> valid_date (date e) ->
  to_md_step (y, m, out) e =
    (year (date e), month (date e),
     out ++ year_heading prev e ++ month_heading prev e ++ [Entry_to_md e]).
Proof.
  intros Hst [Hy Hm]. unfold to_md_step, year_heading, month_heading.
  destruct prev as [p|]; destruct Hst as [-> ->].
  - destruct (Z.eqb_spec (year (date e)) (year (date p))) as [Ey|Ey];
      destruct (Z.eqb_spec (month (date e)) (month (date p))) as [Em|Em];
      cbn [negb];
      repeat (case_bool_decide; try congruence);
      rewrite ?Ey, ?Em, <- ?app_assoc; done.
  - destruct (Z.eqb_spec (year (date e)) (-1)) as [Ey|_]; [lia|].
    destruct (Z.eqb_spec (month (date e)) (-1)) as [Em|_]; [lia|].
    cbn [negb]. by rewrite <- !app_assoc.
Qed.

Lemma to_md_loop es prev y m out :
  md_state prev y m -> Forall (fun e => valid_date (date e)) es ->
  (foldl to_md_step (y, m, out) es).2 = out ++ md_sections prev es.
Proof.
  revert prev y m out. induction es as [|e es IH]; intros prev y m out Hst Hv.
  - simpl. by rewrite app_nil_r.
  - apply Forall_cons in Hv as [He Hv]. cbn [foldl md_sections].
    rewrite (to_md_step_sections prev) by done.
    rewrite (IH (Some e)) by done. by rewrite <- !app_assoc.
Qed.

Lemma str_of_Z_four_digits y :
  1000 <= y <= 9999 -> length (str_of_Z y) = 4%nat.
Proof.
  intros Hy.
  assert (forallb (fun k => Nat.eqb (length (str_of_Z (1000 + Z.of_nat k))) 4)
                  (seq 0 (Z.to_nat 9000)) = true) as Hall by (vm_compute; reflexivity).
  rewrite forallb_forall in Hall.
  specialize (Hall (Z.to_nat (y - 1000))).
  replace (1000 + Z.of_nat (Z.to_nat (y - 1000))) with y in Hall by lia.
  apply Nat.eqb_eq, Hall, in_seq. lia.
Qed.

(** C3.  The Markdown export walks the entries in journal order; an
    entry gets a year heading (the year in decimal, four digits from
    1000 on, underlined with [=]) exactly when its year differs from the
    year of the entry right before it, and, independently, a month
    heading (what [%B] prints, underlined with [-]) exactly when its
    month differs from that entry's month; the first entry gets both.
    The entry's own block follows, and all pieces are joined by single
    line feeds.  Entries of 2023-01-05, 2023-01-20 and 2023-02-01 give
    one heading 2023, January before the first two and February before
    the third. *)
Theorem to_md_headings journal :
  Forall (fun e => valid_date (date e)) (entries journal) ->
  (forall d, strftime (py "%B") d = month_name (month d)) ->
  to_md journal = join [NL] (md_sections None (entries journal))
  /\ (forall e, e ∈ entries journal -> 1000 <= year (date e) ->
        length (str_of_Z (year (date e))) = 4%nat)
  /\ (forall e1 e2 e3,
        entries journal = [e1; e2; e3] ->
        (year (date e1), month (date e1), day (date e1)) = (2023, 1, 5) ->
        (year (date e2), month (date e2), day (date e2)) = (2023, 1, 20) ->
        (year (date e3), month (date e3), day (date e3)) = (2023, 2, 1) ->
        to_md journal =
          join [NL]
            [py "2023"; py "====" ++ [NL];
             py "January"; py "-------" ++ [NL];
             Entry_to_md e1; Entry_to_md e2;
             py "February"; py "--------" ++ [NL];
             Entry_to_md e3]).
Proof.
  intros Hv HB.
  assert (to_md journal = join [NL] (md_sections None (entries journal))) as Hmd.
  { unfold to_md. by rewrite (to_md_loop _ None). }
  split; [exact Hmd|]. split.
  - intros e He Hy. apply str_of_Z_four_digits.
    rewrite Forall_forall in Hv. destruct (Hv e He) as [[_ Hmax] _]. lia.
  - intros e1 e2 e3 Hes [= Y1 M1 D1] [= Y2 M2 D2] [= Y3 M3 D3].
    rewrite Hmd, Hes. cbn [md_sections].
    unfold year_heading, month_heading.
    rewrite !HB, Y1, Y2, Y3, M1, M2, M3.
    repeat (case_bool_decide; try done).
Qed.

(** *** JSON export *)

Lemma count_app t l1 l2 : count t (l1 ++ l2) = count t l1 + count t l2.
Proof. unfold count. rewrite filter_app, length_app. lia. Qed.

Lemma count_not_in t l : t ∉ l -> count t l = 0.
Proof.
  intros Hn. unfold count.
  destruct (filter (fun y => y = t) l) as [|x r] eqn:E; [done|].
  assert (x ∈ filter (fun y => y = t) l) as Hx by (rewrite E; left).
  apply list_elem_of_filter in Hx as [-> Hx]. done.
Qed.

Lemma count_cons t x l :
  count t (x :: l) = (if bool_decide (x = t) then 1 else 0) + count t l.
Proof.
  unfold count. rewrite filter_cons.
  case_bool_decide; destruct (decide (x = t)); try done; simpl; lia.
Qed.

Lemma count_NoDup t l :
  NoDup l -> count t l = if bool_decide (t ∈ l) then 1 else 0.
Proof.
  induction 1 as [|x l Hx Hnd IH].
  - case_bool_decide as H; [by apply elem_of_nil in H|done].
  - rewrite count_cons, IH.
    destruct (decide (x = t)) as [E|E].
    + subst x. rewrite (bool_decide_eq_true_2 (t = t)) by done.
      rewrite (bool_decide_eq_false_2 (t ∈ l)) by done.
      rewrite bool_decide_eq_true_2; [done|]. left.
    + rewrite (bool_decide_eq_false_2 (x = t)) by done.
      destruct (decide (t ∈ l)) as [Hin|Hout].
      * rewrite !bool_decide_eq_true_2; [done| by right |done].
      * rewrite !bool_decide_eq_false_2; [done| |done].
        intros [->|H]%elem_of_cons; done.
Qed.

Lemma count_flat tag es :
  count tag (concat (map (fun entry => elements (list_to_set (tags entry) : gset str)) es))
  = entries_with tag es.
Proof.
  unfold entries_with. induction es as [|e es IH]; [done|].
  cbn [map concat]. rewrite count_app, IH, filter_cons.
  rewrite count_NoDup by apply NoDup_elements.
  destruct (decide (tag ∈ tags e)) as [Hin|Hout].
  - rewrite bool_decide_eq_true_2; [simpl; lia|].
    by apply elem_of_elements, elem_of_list_to_set.
  - rewrite bool_decide_eq_false_2; [simpl; lia|].
    by rewrite elem_of_elements, elem_of_list_to_set.
Qed.

Lemma entries_with_pos tag es :
  0 < entries_with tag es <-> exists e, e ∈ es /\ tag ∈ tags e.
Proof.
  unfold entries_with. split.
  - intros H. destruct (filter (fun e => tag ∈ tags e) es) as [|e r] eqn:E;
      [simpl in H; lia|].
    assert (e ∈ filter (fun e => tag ∈ tags e) es) as He by (rewrite E; left).
    apply list_elem_of_filter in He as [Ht He]. by exists e.
  - intros (e & He & Ht).
    assert (e ∈ filter (fun e => tag ∈ tags e) es) as Hf
      by by apply list_elem_of_filter.
    destruct (filter (fun e => tag ∈ tags e) es); [by apply elem_of_nil in Hf|].
    simpl. lia.
Qed.

Lemma elem_of_concat {A} (x : A) (ls : list (list A)) :
  x ∈ concat ls <-> exists l, x ∈ l /\ l ∈ ls.
Proof.
  induction ls as [|l ls IH]; simpl.
  - split; [by intros H%elem_of_nil|]. by intros (l & _ & H%elem_of_nil).
  - rewrite elem_of_app, IH. split.
    + intros [H|(l' & H & Hl)]; [exists l|exists l']; split; try done;
        [left|by right].
    + intros (l' & H & [->|Hl]%elem_of_cons); [by left|right; by exists l'].
Qed.

Lemma elem_of_get_tags_count journal n tag :
  (n, tag) ∈ get_tags_count journal <->
  n = entries_with tag (entries journal) /\ 0 < n.
Proof.
  unfold get_tags_count. rewrite elem_of_list_to_set.
  change (map ?f ?l) with (f <$> l). rewrite list_elem_of_fmap.
  split.
  - intros (t & [= -> ->] & Ht). rewrite count_flat. split; [done|].
    apply entries_with_pos.
    apply elem_of_concat in Ht as (l & Ht & Hl).
    apply list_elem_of_fmap in Hl as (e & -> & He).
    exists e. split; [done|].
    by apply elem_of_elements, elem_of_list_to_set in Ht.
  - intros [-> Hpos]. exists tag. rewrite count_flat. split; [done|].
    apply entries_with_pos in Hpos as (e & He & Ht).
    apply elem_of_concat. exists (elements (list_to_set (tags e) : gset str)).
    split; [by apply elem_of_elements, elem_of_list_to_set|].
    apply list_elem_of_fmap. by exists e.
Qed.

Lemma dict_of_snoc pairs kv :
  dict_of (pairs ++ [kv]) = <[kv.1 := kv.2]> (dict_of pairs).
Proof. unfold dict_of. by rewrite foldl_snoc. Qed.

Lemma dict_of_lookup (pairs : list (str * json)) k v :
  (forall k v v', (k, v) ∈ pairs -> (k, v') ∈ pairs -> v = v') ->
  dict_of pairs !! k = Some v <-> (k, v) ∈ pairs.
Proof.
  induction pairs as [|[k0 v0] pairs IH] using rev_ind; intros Hfun.
  - unfold dict_of. simpl. rewrite lookup_empty.
    split; [done|by intros H%elem_of_nil].
  - rewrite dict_of_snoc. simpl.
    assert (forall k v v', (k, v) ∈ pairs -> (k, v') ∈ pairs -> v = v') as Hfun'.
    { intros k1 v1 v1' H1 H2. apply (Hfun k1); apply elem_of_app; by left. }
    destruct (decide (k0 = k)) as [->|Hne].
    + rewrite lookup_insert_eq. split.
      * intros [= ->]. apply elem_of_app. right. left.
      * intros H. f_equal. apply (Hfun k); [|done].
        apply elem_of_app. right. left.
    + rewrite lookup_insert_ne by done. rewrite IH by done.
      rewrite elem_of_app, list_elem_of_singleton. split; [by left|].
      intros [H|[= -> ->]]; done.
Qed.

Lemma tags_dict_lookup journal tag :
  dict_of (map (fun ct : Z * str => (ct.2, JInt ct.1))
               (elements (get_tags_count journal))) !! tag
  = if bool_decide (0 < entries_with tag (entries journal))
    then Some (JInt (entries_with tag (entries journal)))
    else None.
Proof.
  set (pairs := map _ _).
  assert (forall k v, (k, v) ∈ pairs <->
            v = JInt (entries_with k (entries journal))
            /\ 0 < entries_with k (entries journal)) as Hin.
  { intros k v. unfold pairs. change (map ?f ?l) with (f <$> l).
    rewrite list_elem_of_fmap. split.
    - intros ([n t] & [= -> ->] & H). simpl.
      apply elem_of_elements, elem_of_get_tags_count in H as [-> H]. done.
    - intros [-> H]. exists (entries_with k (entries journal), k).
      split; [done|]. by apply elem_of_elements, elem_of_get_tags_count. }
  assert (forall k v v', (k, v) ∈ pairs -> (k, v') ∈ pairs -> v = v') as Hfun.
  { intros k v v' [-> _]%Hin [-> _]%Hin. done. }
  case_bool_decide as Hpos.
  - apply dict_of_lookup; [done|]. by apply Hin.
  - destruct (dict_of pairs !! tag) as [v|] eqn:E; [|done].
    apply dict_of_lookup in E; [|done]. apply Hin in E as [_ E]. done.
Qed.

Lemma entry_dicts_lookup es k i e :
  es !! i = Some e ->
  entry_dicts k es !! i =
    Some (JDict (<[py "id" := JInt (k + Z.of_nat i)]> (to_dict e))).
Proof.
  revert k i. induction es as [|e0 es IH]; intros k i; [done|].
  destruct i as [|i]; simpl.
  - intros [= ->]. by rewrite Z.add_0_r.
  - intros H. rewrite (IH _ _ H). do 4 f_equal. lia.
Qed.

Lemma entry_dicts_length es k : length (entry_dicts k es) = length es.
Proof. revert k. induction es as [|e es IH]; intros k; simpl; [done|by rewrite IH]. Qed.

Ltac str_ne :=
  let H := fresh in intros H; vm_compute in H; discriminate H.

Lemma to_dict_no_id e : to_dict e !! py "id" = None.
Proof.
  unfold to_dict. cbn [list_to_map foldr uncurry fst snd].
  rewrite !lookup_insert_ne by str_ne. apply lookup_empty.
Qed.

(** C2.  The JSON export serialises one object with exactly the keys
    [tags], [todos] and [entries].  [tags] maps every tag that occurs to
    the number of entries that hold it at least once, and holds no other
    key; [todos] lists the structured views of the todos of all entries
    in journal order; [entries] lists, in journal order, the structured
    view of each entry with the further key [id], which the view itself
    does not have, set to the entry's position counted from 1. *)
Theorem to_json_shape journal :
  to_json journal = json_dumps (JDict (to_json_result journal))
  /\ dom (to_json_result journal)
     = ({[py "tags"; py "todos"; py "entries"]} : gset str)
  /\ (exists T,
        to_json_result journal !! py "tags" = Some (JDict T)
        /\ forall tag,
             T !! tag =
               if bool_decide (0 < entries_with tag (entries journal))
               then Some (JInt (entries_with tag (entries journal)))
               else None)
  /\ to_json_result journal !! py "todos"
     = Some (JList (map todo_to_dict (concat (map todos (entries journal)))))
  /\ (exists E,
        to_json_result journal !! py "entries" = Some (JList E)
        /\ length E = length (entries journal)
        /\ forall i e,
             entries journal !! i = Some e ->
             to_dict e !! py "id" = None
             /\ E !! i =
                  Some (JDict (<[py "id" := JInt (Z.of_nat i + 1)]> (to_dict e)))).
Proof.
  split; [done|].
  unfold to_json_result. cbn [list_to_map foldr uncurry fst snd].
  split; [|split; [|split]].
  - rewrite !dom_insert_L, dom_empty_L. set_solver.
  - eexists. split; [by rewrite lookup_insert_eq|]. apply tags_dict_lookup.
  - rewrite lookup_insert_ne by str_ne. by rewrite lookup_insert_eq.
  - eexists. split; [|split].
    + rewrite !lookup_insert_ne by str_ne. by rewrite lookup_insert_eq.
    + apply entry_dicts_length.
    + intros i e He. split; [apply to_dict_no_id|].
      rewrite (entry_dicts_lookup _ _ _ _ He). do 4 f_equal. lia.
Qed.

(** *** Listings *)

Lemma get_tags_count_empty journal :
  (forall e, e ∈ entries journal -> tags e = []) ->
  get_tags_count journal = ∅.
Proof.
  intros H. unfold get_tags_count.
  assert (concat (map (fun entry => elements (list_to_set (tags entry) : gset str))
                      (entries journal)) = []) as ->; [|done].
  induction (entries journal) as [|e es IH]; [done|].
  cbn [map concat]. rewrite (H e) by left.
  rewrite IH by (intros e' He'; apply H; by right).
  cbn [list_to_set foldr]. by rewrite elements_empty.
Qed.

(** C10.  A journal whose entries hold no tag gets the tag listing
    [[No tags found in journal.]]; a journal whose entries hold no todo
    gets the todo listing [[No todos found in journal.]]. *)
Theorem empty_listings journal :
  ((forall e, e ∈ entries journal -> tags e = []) ->
   to_tag_list journal = py "[No tags found in journal.]")
  /\ ((forall e, e ∈ entries journal -> todos e = []) ->
      to_todo_list journal = py "[No todos found in journal.]").
Proof.
  split; intros H.
  - unfold to_tag_list. rewrite get_tags_count_empty by done.
    by rewrite elements_empty.
  - unfold to_todo_list, get_todos.
    assert (concat (map todos (entries journal)) = []) as ->; [|done].
    induction (entries journal) as [|e es IH]; [done|].
    cbn [map concat]. rewrite (H e) by left.
    apply IH. intros e' He'. apply H. by right.
Qed.

(** *** export *)

Lemma maps_None format : format ∉ formats -> maps format = None.
Proof.
  intros H. unfold maps.
  repeat (case_bool_decide;
          [exfalso; apply H; subst format; unfold formats;
           repeat (first [by left | right])|]).
  done.
Qed.

(** C8.  For a format outside json, txt, text, md and markdown,
    [export] raises nothing, leaves the file system alone and returns
    the error message, which quotes the format and names md, txt and
    json as the valid options. *)
Theorem export_unknown_format journal format output fs :
  format ∉ formats ->
  exists msg,
    export journal format output fs = (fs, inr msg)
    /\ msg = py "[ERROR: can't export to '" ++ format
               ++ py "'. Valid options are 'md', 'txt', and 'json']"
    /\ contains (py "ERROR") msg
    /\ contains format msg
    /\ contains (py "'md', 'txt', and 'json'") msg.
Proof.
  intros H. eexists. split; [|split; [reflexivity|]].
  - unfold export. by rewrite maps_None.
  - split; [|split].
    + exists (py "["), (py ": can't export to '" ++ format
        ++ py "'. Valid options are 'md', 'txt', and 'json']"). done.
    + eexists _, _. reflexivity.
    + exists (py "[ERROR: can't export to '" ++ format
                ++ py "'. Valid options are "), (py "]").
      rewrite <- !app_assoc. done.
Qed.

(** *** The constructor *)

Lemma rstrip_split chars s :
  exists ws, s = rstrip chars s ++ ws
             /\ Forall (fun c => char_in c chars = true) ws.
Proof.
  induction s as [|a s (ws & Hs & Hws)]; [by exists []|].
  cbn [rstrip]. destruct (rstrip chars s) as [|b r] eqn:E.
  - destruct (char_in a chars) eqn:Ea.
    + exists (a :: ws). simpl in Hs. subst s. split; [done|by constructor].
    + exists ws. simpl in Hs. by subst s.
  - exists ws. split; [|done]. simpl. by rewrite Hs at 1.
Qed.

Lemma rstrip_blank_iff chars s :
  rstrip chars s = [] <-> forallb (fun c => char_in c chars) s = true.
Proof.
  induction s as [|a s IH]; [done|]. cbn [rstrip forallb].
  destruct (rstrip chars s) as [|b r] eqn:E.
  - destruct IH as [IH _]. rewrite (IH eq_refl), andb_true_r.
    by destruct (char_in a chars).
  - destruct (forallb (fun c => char_in c chars) s) eqn:Ef.
    + destruct IH as [_ IH]. discriminate (IH eq_refl).
    + by rewrite andb_false_r.
Qed.

Lemma rstrip_blank chars ws :
  Forall (fun c => char_in c chars = true) ws -> rstrip chars ws = [].
Proof.
  intros H. apply rstrip_blank_iff, forallb_forall.
  rewrite Forall_forall in H. intros c Hc. by apply H, list_elem_of_In.
Qed.

Lemma rstrip_app_blank chars s ws :
  Forall (fun c => char_in c chars = true) ws ->
  rstrip chars (s ++ ws) = rstrip chars s.
Proof.
  intros H. induction s as [|a s IH]; simpl; [by apply rstrip_blank|].
  by rewrite IH.
Qed.

(** X1.  [Entry.__init__] stores the title and the body without their
    trailing line feeds and spaces, and nothing else is taken away: what
    was given is what is stored followed by line feeds and spaces only,
    and what is stored does not end in one.  The date is the one given,
    or the current time when none is given; the tags are those of the
    stored title and body, and the todos are read from the date, the
    stored title and body and these tags; the entry is not modified. *)
Theorem Entry_init_strips cfg now d t b st e :
  Entry_init cfg now d t b st = Parsed e ->
  (exists ws, t = title e ++ ws
              /\ Forall (fun c => c = NL \/ c = SP) ws)
  /\ (exists ws, b = body e ++ ws
                 /\ Forall (fun c => c = NL \/ c = SP) ws)
  /\ (forall c, last (title e) = Some c -> c <> NL /\ c <> SP)
  /\ (forall c, last (body e) = Some c -> c <> NL /\ c <> SP)
  /\ date e = default now d
  /\ parse_tags cfg (title e) (body e) = Parsed (tags e)
  /\ todos e = parse_entry_todos cfg (date e) (title e) (body e) (tags e)
  /\ journal_config e = cfg /\ starred e = st /\ modified e = false.
Proof.
  unfold Entry_init.
  destruct (parse_tags cfg (rstrip nl_sp t) (rstrip nl_sp b)) as [tg| |] eqn:Et;
    [|done|done].
  intros [= <-].
  cbn [title body date tags todos journal_config starred modified].
  assert (forall c, char_in c nl_sp = true -> c = NL \/ c = SP) as Hin.
  { intros c. unfold char_in, nl_sp. cbn [existsb]. rewrite orb_false_r.
    intros [H|H]%orb_true_iff; apply Ascii.eqb_eq in H; [by left|by right]. }
  assert (forall s c, last (rstrip nl_sp s) = Some c -> c <> NL /\ c <> SP) as Hlast.
  { intros s c Hc.
    destruct (rstrip_last nl_sp s) as (c' & Hc' & Hn); [by intros E; rewrite E in Hc|].
    rewrite Hc in Hc'. injection Hc' as <-.
    split; intros ->; vm_compute in Hn; discriminate Hn. }
  repeat split; try done; try by eapply Hlast.
  - destruct (rstrip_split nl_sp t) as (ws & Hs & Hws). exists ws.
    split; [done|]. eapply Forall_impl; [exact Hws|]. exact Hin.
  - destruct (rstrip_split nl_sp b) as (ws & Hs & Hws). exists ws.
    split; [done|]. eapply Forall_impl; [exact Hws|]. exact Hin.
Qed.

(** X2.  Line feeds and spaces at the end of the title and of the body
    make no difference to the entry that [Entry.__init__] builds, and
    building an entry again from the fields of one that was built gives
    that entry back. *)
Theorem Entry_init_trailing_blanks cfg now d t b st ws1 ws2 :
  Forall (fun c => c = NL \/ c = SP) ws1 ->
  Forall (fun c => c = NL \/ c = SP) ws2 ->
  Entry_init cfg now d (t ++ ws1) (b ++ ws2) st = Entry_init cfg now d t b st
  /\ forall e now',
       Entry_init cfg now d t b st = Parsed e ->
       Entry_init cfg now' (Some (date e)) (title e) (body e) (starred e)
       = Parsed e.
Proof.
  intros H1 H2.
  assert (forall ws, Forall (fun c => c = NL \/ c = SP) ws ->
            Forall (fun c => char_in c nl_sp = true) ws) as Hin.
  { intros ws H. eapply Forall_impl; [exact H|]. by intros c [-> | ->]. }
  split.
  - unfold Entry_init. by rewrite !rstrip_app_blank by by apply Hin.
  - intros e now'. unfold Entry_init.
    destruct (parse_tags cfg (rstrip nl_sp t) (rstrip nl_sp b)) as [tg| |] eqn:Et;
      [|done|done].
    intros [= <-]. cbn [title body date starred default].
    by rewrite !rstrip_idem, Et.
Qed.

(** X3.  The symbols are spliced into the pattern as they are, so a
    symbol text [x-y] is a range; when [y] comes before [x] the pattern
    does not compile, and [Entry.__init__] raises whatever the title and
    the body are. *)
Theorem Entry_init_bad_range cfg now d t b st lo hi :
  tagsymbols cfg = [hi; "-"%char; lo] ->
  (code lo < code hi)%N ->
  hi <> "\"%char -> hi <> "^"%char -> lo <> "]"%char -> lo <> "\"%char ->
  tag_regex (tagsymbols cfg) = BadRange
  /\ Entry_init cfg now d t b st = BadRange.
Proof.
  intros Hs Hlt H1 H2 H3 H4.
  assert (tag_regex (tagsymbols cfg) = BadRange) as Hbad.
  { rewrite Hs. unfold tag_regex, parse_set.
    apply Ascii.eqb_neq in H1, H2, H3, H4. rewrite H2.
    cbn [parse_items]. rewrite H1, H3, H4. cbn [Ascii.eqb Bool.eqb negb andb orb].
    rewrite andb_false_r.
    by apply N.ltb_lt in Hlt as ->. }
  split; [done|]. unfold Entry_init, parse_tags. by rewrite Hbad.
Qed.

(** X4.  Between the brackets of the pattern a leading [^] negates: with
    the symbol text [^] followed by plain symbols, a tag may begin with
    any character but those symbols.  A symbol text [x-y] with [x] not
    after [y] stands for every character from [x] to [y]. *)
Theorem tag_regex_unescaped symbols lo hi :
  symbols <> [] -> forallb plain symbols = true ->
  plain lo = true -> plain hi = true -> (code lo <= code hi)%N ->
  (exists cs, tag_regex ("^"%char :: symbols) = Parsed cs
              /\ forall c, set_matches cs c = negb (char_in c symbols))
  /\ (exists cs, tag_regex [lo; "-"%char; hi] = Parsed cs
                 /\ forall c, set_matches cs c = between lo hi c).
Proof.
  intros Hne Hp Hlo Hhi Hle. split.
  - unfold tag_regex, parse_set. cbn [Ascii.eqb Bool.eqb].
    destruct (parse_items_plain true symbols Hne Hp) as (l & -> & Hl).
    eexists. split; [done|]. intros c. unfold set_matches. simpl.
    by rewrite Hl.
  - assert (forall c, plain c = true ->
              Ascii.eqb c "^"%char = false /\ Ascii.eqb c "]"%char = false
              /\ Ascii.eqb c "\"%char = false) as Hplain.
    { intros c Hc. unfold plain, char_in in Hc. cbn [existsb] in Hc.
      rewrite !negb_orb in Hc.
      destruct (Ascii.eqb c "^"), (Ascii.eqb c "]"), (Ascii.eqb c "\");
        simpl in Hc; rewrite ?andb_false_r in Hc; done. }
    destruct (Hplain lo Hlo) as (L1 & L2 & L3).
    destruct (Hplain hi Hhi) as (_ & R2 & R3).
    unfold tag_regex, parse_set. rewrite L1. cbn [parse_items].
    rewrite L2, L3, R2, R3. cbn [Ascii.eqb Bool.eqb andb orb].
    assert ((code hi <? code lo)%N = false) as -> by by apply N.ltb_ge.
    eexists. split; [done|]. intros c. unfold set_matches, between. simpl.
    by rewrite orb_false_r.
Qed.

(** *** Equality and representation *)






Lemma eq_iff a b :
  __eq__ a (AnEntry b) = true <->
  strip (title a) = strip (title b)
  /\ rstrip_ws (body a) = rstrip_ws (body b)
  /\ date a = date b /\ starred a = starred b.
Proof. unfold __eq__. repeat case_bool_decide; simpl; intuition congruence. Qed.

(** X5.  [==] on entries is an equivalence relation; an entry never
    equals a value of another class; [!=] holds exactly when [==] does
    not. *)
Theorem eq_equivalence :
  Equivalence (fun a b : Entry => __eq__ a (AnEntry b) = true)
  /\ (forall a, __eq__ a Other = false)
  /\ (forall a o, __ne__ a o = true <-> __eq__ a o = false).
Proof.
  split; [split|split].
  - intros a. by apply eq_iff.
  - intros a b H. apply eq_iff in H as (H1 & H2 & H3 & H4). by apply eq_iff.
  - intros a b c H H'. apply eq_iff in H as (H1 & H2 & H3 & H4).
    apply eq_iff in H' as (H1' & H2' & H3' & H4'). apply eq_iff.
    repeat split; congruence.
  - done.
  - intros a o. unfold __ne__. apply negb_true_iff.
Qed.


(** X7.  Entries that are [==] have the same [repr]. *)
Theorem repr_respects_eq a b :
  __eq__ a (AnEntry b) = true -> __repr__ a = __repr__ b.
Proof.
  intros (H1 & _ & H3 & _)%eq_iff. unfold __repr__. by rewrite H1, H3.
Qed.

(** *** Tag counts and listings *)

Lemma entries_with_le tag es : entries_with tag es <= Z.of_nat (length es).
Proof. unfold entries_with. pose proof (length_filter (fun e => tag ∈ tags e) es). lia. Qed.

(** X8.  [get_tags_count] pairs every tag that occurs in the journal
    with the number of entries that hold it; that number is at least 1
    and at most the number of entries, and no tag comes in two pairs. *)
Theorem get_tags_count_counts journal :
  Forall (fun x : Z * str =>
            x.1 = entries_with x.2 (entries journal)
            /\ 1 <= x.1 <= Z.of_nat (length (entries journal))
            /\ exists e, e ∈ entries journal /\ x.2 ∈ tags e)
         (elements (get_tags_count journal))
  /\ NoDup (map snd (elements (get_tags_count journal))).
Proof.
  split.
  - apply Forall_forall. intros [n tag] H.
    apply elem_of_elements, elem_of_get_tags_count in H as [-> Hpos].
    cbn [fst snd]. split; [done|]. split.
    + pose proof (entries_with_le tag (entries journal)). lia.
    + by apply entries_with_pos.
  - apply (NoDup_fmap_2_strong snd); [|apply NoDup_elements].
    intros [n t] [m t'] H1 H2. cbn [snd]. intros <-.
    apply elem_of_elements, elem_of_get_tags_count in H1 as [-> _].
    apply elem_of_elements, elem_of_get_tags_count in H2 as [-> _]. done.
Qed.

Lemma tuple_min_in x l : tuple_min x l ∈ x :: l.
Proof.
  unfold tuple_min. revert x. induction l as [|y l IH]; intros x; [left|].
  cbn [foldl]. destruct (tuple_leb x y).
  - specialize (IH x). apply elem_of_cons in IH as [->|IH]; [left|].
    right. by right.
  - right. apply IH.
Qed.

Lemma str_leb_total a b : str_leb a b = true \/ str_leb b a = true.
Proof.
  revert b. induction a as [|x a IH]; intros [|y b]; simpl; auto.
  destruct (N.ltb_spec (code x) (code y)), (N.ltb_spec (code y) (code x));
    auto; lia.
Qed.

Lemma str_leb_trans a b c :
  str_leb a b = true -> str_leb b c = true -> str_leb a c = true.
Proof.
  revert b c. induction a as [|x a IH]; intros [|y b] [|z c]; simpl; try done.
  destruct (N.ltb_spec (code x) (code y)), (N.ltb_spec (code y) (code x)),
    (N.ltb_spec (code y) (code z)), (N.ltb_spec (code z) (code y)),
    (N.ltb_spec (code x) (code z)), (N.ltb_spec (code z) (code x));
    try done; try lia.
  apply IH.
Qed.

Lemma tuple_leb_iff a b :
  tuple_leb a b = true <-> a.1 < b.1 \/ (a.1 = b.1 /\ str_leb a.2 b.2 = true).
Proof.
  unfold tuple_leb.
  destruct (Z.ltb_spec a.1 b.1), (Z.ltb_spec b.1 a.1); try lia.
  split; [intros; right; split; [lia|done]|].
  intros [?|[_ ?]]; [lia|done].
Qed.

#[local] Instance tuple_geb_total : Total (fun a b => Is_true (tuple_leb b a)).
Proof.
  intros a b. rewrite !Is_true_true, !tuple_leb_iff.
  destruct (Z.lt_trichotomy a.1 b.1) as [?|[E|?]];
    [right; by left| |left; by left].
  destruct (str_leb_total a.2 b.2); [right|left]; right; by split.
Qed.

#[local] Instance tuple_geb_trans : Transitive (fun a b => Is_true (tuple_leb b a)).
Proof.
  intros a b c. rewrite !Is_true_true, !tuple_leb_iff.
  intros [?|[? H1]] [?|[? H2]]; try lia.
  right. split; [lia|]. by eapply str_leb_trans.
Qed.

Lemma StronglySorted_weaken {A} (R R' : relation A) l :
  (forall a b, R a b -> R' a b) -> StronglySorted R l -> StronglySorted R' l.
Proof.
  intros HR. induction 1 as [|x l Hl IH Hx]; constructor; [done|].
  eapply Forall_impl; [exact Hx|]. apply HR.
Qed.

(** X9.  Every count being at least 1, [to_tag_list] never takes the
    branch that removes tags and announces it: for a journal with tags
    the listing is one line per tag of [get_tags_count], each tag once,
    from the greatest count to the least and, for equal counts, from the
    greatest tag to the least. *)
Theorem to_tag_list_sorted journal :
  exists l,
    l ≡ₚ elements (get_tags_count journal)
    /\ StronglySorted
         (fun a b : Z * str =>
            b.1 < a.1 \/ (b.1 = a.1 /\ str_leb b.2 a.2 = true)) l
    /\ to_tag_list journal =
         match l with
         | [] => py "[No tags found in journal.]"
         | _ => join [NL] (map tag_line l)
         end.
Proof.
  exists (sorted_reverse (elements (get_tags_count journal))).
  split; [apply merge_sort_Permutation|]. split.
  - eapply StronglySorted_weaken; [|apply StronglySorted_merge_sort; apply _].
    intros a b H. by apply tuple_leb_iff, Is_true_true.
  - unfold to_tag_list.
    destruct (elements (get_tags_count journal)) as [|x l] eqn:E; [done|].
    assert (((tuple_min x l).1 =? 0) = false) as ->.
    { apply Z.eqb_neq.
      pose proof (tuple_min_in x l) as Hin. rewrite <- E in Hin.
      destruct (tuple_min x l) as [n t].
      apply elem_of_elements, elem_of_get_tags_count in Hin as [_ Hpos].
      cbn [fst]. lia. }
    cbn [app].
    pose proof (merge_sort_Permutation
                  (fun a b => Is_true (tuple_leb b a)) (x :: l)) as Hp.
    fold (sorted_reverse (x :: l)) in Hp.
    destruct (sorted_reverse (x :: l)); [|done].
    by apply Permutation_nil_cons in Hp.
Qed.

(** X10.  For a journal with todos, [to_todo_list] is the heading
    [Pending] between two rules of seven [=], the lines of the todos that
    are not complete, an empty line, the heading [Completed] between two
    rules of nine [=], and the lines of the complete ones.  Every todo
    of the journal is in one of the two groups, and each group keeps the
    order of the journal. *)
Theorem to_todo_list_sections journal :
  get_todos journal <> [] ->
  exists pending completed,
    to_todo_list journal =
      py "=======" ++ [NL] ++ py "Pending" ++ [NL] ++ py "=======" ++ [NL]
        ++ join [NL] (map to_item_format pending)
        ++ [NL; NL]
        ++ py "=========" ++ [NL] ++ py "Completed" ++ [NL]
        ++ py "=========" ++ [NL]
        ++ join [NL] (map to_item_format completed)
    /\ pending ++ completed ≡ₚ get_todos journal
    /\ pending `sublist_of` get_todos journal
    /\ completed `sublist_of` get_todos journal
    /\ Forall (fun t => is_complete t = false) pending
    /\ Forall (fun t => is_complete t = true) completed.
Proof.
  intros Hne.
  exists (filter (fun t => is_complete t = false) (get_todos journal)),
         (filter (fun t => is_complete t = true) (get_todos journal)).
  split; [|split; [|split; [|split; [|split]]]].
  - unfold to_todo_list. destruct (get_todos journal) as [|t ts] eqn:E; [done|].
    unfold appendable_header, appendable_todo_list.
    cbn [length py list_ascii_of_string times replicate].
    by rewrite <- !app_assoc.
  - clear Hne. induction (get_todos journal) as [|t ts IH]; [done|].
    rewrite !filter_cons. destruct (is_complete t) eqn:Et.
    + rewrite decide_False by done. rewrite decide_True by done.
      rewrite <- Permutation_middle. by apply Permutation_skip.
    + rewrite decide_True by done. rewrite decide_False by done.
      simpl. by apply Permutation_skip.
  - apply sublist_filter.
  - apply sublist_filter.
  - apply Forall_forall. by intros t [H _]%list_elem_of_filter.
  - apply Forall_forall. by intros t [H _]%list_elem_of_filter.
Qed.

(** *** Markdown export, entry after entry *)

Lemma join_app (sep : str) (a b : list str) :
  a <> [] -> b <> [] -> join sep (a ++ b) = join sep a ++ sep ++ join sep b.
Proof.
  intros Ha Hb. induction a as [|x a IH]; [done|].
  destruct a as [|y a].
  - simpl. by destruct b.
  - change (join sep ((x :: y :: a) ++ b))
      with (x ++ sep ++ join sep ((y :: a) ++ b)).
    rewrite IH by done.
    change (join sep (x :: y :: a)) with (x ++ sep ++ join sep (y :: a)).
    by rewrite <- !app_assoc.
Qed.

Lemma md_sections_snoc prev es e1 e2 :
  md_sections prev (es ++ [e1; e2]) =
    md_sections prev (es ++ [e1])
      ++ year_heading (Some e1) e2 ++ month_heading (Some e1) e2
      ++ [Entry_to_md e2].
Proof.
  revert prev. induction es as [|e es IH]; intros prev.
  - cbn [app md_sections]. by rewrite <- !app_assoc.
  - cbn [app md_sections]. rewrite IH. by rewrite <- !app_assoc.
Qed.

Lemma md_sections_snoc_nonempty prev es e : md_sections prev (es ++ [e]) <> [].
Proof.
  destruct es as [|e0 es]; cbn [app md_sections]; intros H;
    apply app_eq_nil in H as [_ H]; apply app_eq_nil in H as [_ H]; done.
Qed.

(** X11.  An entry added at the end of the journal adds to the Markdown
    export after a line feed without changing what was there.  When its
    year is not that of the entry before it and its month is the same,
    what is added is the year heading and the entry: the month heading is
    not repeated.  When year and month are those of the entry before it,
    the entry alone is added. *)
Theorem to_md_append cfg es e1 e2 :
  Forall (fun e => valid_date (date e)) (es ++ [e1; e2]) ->
  let before := to_md {| entries := es ++ [e1]; config := cfg |} in
  let after := to_md {| entries := es ++ [e1; e2]; config := cfg |} in
  (year (date e1) <> year (date e2) -> month (date e1) = month (date e2) ->
   after = before ++ [NL]
             ++ str_of_Z (year (date e2)) ++ [NL]
             ++ times "="%char (length (str_of_Z (year (date e2)))) ++ [NL]
             ++ [NL] ++ Entry_to_md e2)
  /\ (year (date e1) = year (date e2) -> month (date e1) = month (date e2) ->
      after = before ++ [NL] ++ Entry_to_md e2).
Proof.
  intros Hv before after.
  assert (Forall (fun e => valid_date (date e)) (es ++ [e1])) as Hv1.
  { apply Forall_app in Hv as [H1 H2]. apply Forall_app. split; [done|].
    apply Forall_cons in H2 as [H2 _]. by constructor. }
  assert (after = before ++ [NL]
            ++ join [NL] (year_heading (Some e1) e2 ++ month_heading (Some e1) e2
                            ++ [Entry_to_md e2])) as Hgen.
  { unfold after, before, to_md. cbn [entries].
    rewrite !(to_md_loop _ None) by done. cbn [app].
    rewrite md_sections_snoc. apply join_app.
    - apply md_sections_snoc_nonempty.
    - intros H. apply app_eq_nil in H as [_ H].
      apply app_eq_nil in H as [_ H]. done. }
  split; intros Hy Hm; rewrite Hgen; unfold year_heading, month_heading.
  - rewrite bool_decide_eq_true_2 by done.
    rewrite bool_decide_eq_false_2 by (intros H; by apply H).
    cbn [app join]. by rewrite <- !app_assoc.
  - rewrite !bool_decide_eq_false_2 by (intros H; by apply H). done.
Qed.

(** *** Pretty-printing without wrapping *)

Lemma blank_swap s :
  forallb (fun c => char_in c [SP; NL]) s = forallb (fun c => char_in c nl_sp) s.
Proof.
  induction s as [|c s IH]; [done|]. cbn [forallb]. rewrite IH. f_equal.
  unfold char_in, nl_sp. cbn [existsb]. rewrite !orb_false_r. apply orb_comm.
Qed.

(** X12.  With no line wrapping configured, the full rendering of an
    entry without a star is its canonical text, but for a body of more
    than 20 characters that are all line feeds and spaces: then it is the
    canonical text and one more line feed.  In particular it is the
    canonical text for every entry that [Entry.__init__] builds. *)
Theorem pprint_unwrapped e :
  linewrap (journal_config e) = 0 -> starred e = false ->
  pprint e false =
    (if (20 <? len (body e))
        && forallb (fun c => char_in c nl_sp) (body e)
     then __unicode__ e ++ [NL]
     else __unicode__ e)
  /\ forall cfg now d t b,
       Entry_init cfg now d t b false = Parsed e ->
       pprint e false = __unicode__ e.
Proof.
  intros Hw Hs.
  assert (pprint e false =
          (if (20 <? len (body e)) && forallb (fun c => char_in c nl_sp) (body e)
           then __unicode__ e ++ [NL] else __unicode__ e)) as Hgen.
  { unfold pprint, pprint_title, pprint_body, has_body, __unicode__.
    rewrite Hw, Hs, blank_swap. cbn [negb andb Z.eqb].
    destruct (forallb (fun c => char_in c nl_sp) (body e)) eqn:Eb.
    - apply rstrip_blank_iff in Eb as ->. cbn [negb].
      rewrite orb_false_r, andb_true_r.
      destruct (20 <? len (body e)); simpl; by rewrite <- ?app_assoc.
    - rewrite andb_false_r, orb_true_r.
      destruct (rstrip nl_sp (body e)) as [|c r] eqn:Er.
      + apply rstrip_blank_iff in Er. congruence.
      + by rewrite <- !app_assoc. }
  split; [exact Hgen|].
  intros cfg now d t b Hi. rewrite Hgen.
  destruct (Entry_init_stripped _ _ _ _ _ _ _ Hi) as [_ Hb].
  destruct (forallb (fun c => char_in c nl_sp) (body e)) eqn:Eb;
    [|by rewrite andb_false_r].
  apply rstrip_blank_iff in Eb. rewrite Hb in Eb. by rewrite Eb.
Qed.

(** *** Files *)

Ltac eval_decide :=
  repeat match goal with
         | |- context [bool_decide ?P] =>
             let b := eval vm_compute in (bool_decide P) in
             change (bool_decide P) with b; cbv iota
         end.

Ltac format_cases H :=
  unfold formats in H;
  repeat (apply elem_of_cons in H as [->|H]);
  [..|by apply elem_of_nil in H].

Lemma maps_Some format :
  format ∈ formats ->
  maps format =
    Some (if bool_decide (format = py "json") then to_json
          else if bool_decide (format ∈ [py "txt"; py "text"]) then to_txt
          else to_md).
Proof. intros H. format_cases H; unfold maps; by eval_decide. Qed.

Lemma file_content_Some e format :
  format ∈ formats ->
  file_content e format =
    Some (if bool_decide (format = py "json")
          then json_dumps (JDict (to_dict e)) ++ [NL]
          else if bool_decide (format ∈ [py "md"; py "markdown"])
          then Entry_to_md e
          else __unicode__ e).
Proof. intros H. format_cases H; unfold file_content; by eval_decide. Qed.

Lemma file_content_None e format :
  format ∉ formats -> file_content e format = None.
Proof.
  intros H. unfold file_content.
  assert (forall l : list str, (forall x, x ∈ l -> x ∈ formats) ->
            bool_decide (format ∈ l) = false) as Hl.
  { intros l Hsub. apply bool_decide_eq_false_2. intros Hin. by apply H, Hsub. }
  rewrite bool_decide_eq_false_2; [|intros ->; apply H; by left].
  rewrite !Hl; [done|..]; intros x Hx; unfold formats; set_solver.
Qed.

Lemma write_file_ok fs p content :
  isdir fs p = false -> denied fs !! p = None ->
  write_file fs p content =
    inr {| dirs := dirs fs; files := <[p := content]> (files fs);
           denied := denied fs |}.
Proof. intros H1 H2. unfold write_file. by rewrite H1, H2. Qed.

Lemma write_file_denied fs p content msg :
  isdir fs p = false -> denied fs !! p = Some msg ->
  write_file fs p content = inl (IOError p msg).
Proof. intros H1 H2. unfold write_file. by rewrite H1, H2. Qed.

Lemma write_file_inr fs p content fs' :
  write_file fs p content = inr fs' ->
  fs' = {| dirs := dirs fs; files := <[p := content]> (files fs);
           denied := denied fs |}.
Proof.
  unfold write_file. destruct (isdir fs p); [done|].
  destruct (denied fs !! p); [done|]. by intros [= <-].
Qed.

Lemma write_file_inl fs p content x :
  write_file fs p content = inl x -> exists msg, x = IOError p msg.
Proof.
  unfold write_file. destruct (isdir fs p); [intros [= <-]; by eexists|].
  destruct (denied fs !! p); [intros [= <-]; by eexists|done].
Qed.

(** What the loop of [write_files] keeps, however it ends. *)
Lemma write_files_loop_frame path format es fs :
  let fs' := (write_files_loop fs path format es).1 in
  dirs fs' = dirs fs /\ denied fs' = denied fs
  /\ dom (files fs) ⊆ dom (files fs')
  /\ forall p, p ∉ map (entry_path path format) es ->
               files fs' !! p = files fs !! p.
Proof.
  revert fs. induction es as [|e es IH]; intros fs; [done|].
  cbn [write_files_loop map]. fold (entry_path path format e).
  destruct (write_file fs _ _) as [x|fs1] eqn:Ew; [done|].
  apply write_file_inr in Ew.
  assert (dirs fs1 = dirs fs /\ denied fs1 = denied fs
          /\ dom (files fs) ⊆ dom (files fs1)
          /\ forall p, p <> entry_path path format e ->
                       files fs1 !! p = files fs !! p) as (D1 & D2 & D3 & D4).
  { subst fs1. cbn [dirs denied files]. repeat split; try done.
    - rewrite dom_insert. set_solver.
    - intros p Hp. by rewrite lookup_insert_ne. }
  destruct (file_content e format).
  - destruct (IH fs1) as (I1 & I2 & I3 & I4). cbn zeta.
    repeat split; try congruence.
    + set_solver.
    + intros p Hp. apply not_elem_of_cons in Hp as [Hp1 Hp2].
      rewrite I4 by done. by apply D4.
  - cbn [fst]. repeat split; try done.
    intros p Hp. apply not_elem_of_cons in Hp as [Hp1 Hp2]. by apply D4.
Qed.

(** The loop over entries that can all be written. *)
Lemma write_files_loop_ok path format es fs :
  format ∈ formats ->
  Forall (fun e => isdir fs (entry_path path format e) = false
                   /\ denied fs !! entry_path path format e = None) es ->
  write_files_loop fs path format es =
    ({| dirs := dirs fs; files := written path format es (files fs);
        denied := denied fs |}, None).
Proof.
  intros Hf. revert fs. induction es as [|e es IH]; intros fs Hw.
  - by destruct fs.
  - apply Forall_cons in Hw as [[H1 H2] Hw].
    assert (exists c, file_content e format = Some c) as [c Hc]
      by (eexists; by apply file_content_Some).
    cbn [write_files_loop]. fold (entry_path path format e).
    rewrite write_file_ok by done. unfold written. cbn [foldl].
    rewrite Hc. fold (written path format es).
    rewrite IH; [done|]. exact Hw.
Qed.

Lemma write_files_loop_app path format pre rest fs :
  format ∈ formats ->
  Forall (fun e => isdir fs (entry_path path format e) = false
                   /\ denied fs !! entry_path path format e = None) pre ->
  write_files_loop fs path format (pre ++ rest) =
    write_files_loop
      {| dirs := dirs fs; files := written path format pre (files fs);
         denied := denied fs |} path format rest.
Proof.
  intros Hf. revert fs. induction pre as [|e pre IH]; intros fs Hw.
  - by destruct fs.
  - apply Forall_cons in Hw as [[H1 H2] Hw].
    assert (exists c, file_content e format = Some c) as [c Hc]
      by (eexists; by apply file_content_Some).
    cbn [app write_files_loop]. fold (entry_path path format e).
    rewrite write_file_ok by done. unfold written. cbn [foldl].
    rewrite Hc. fold (written path format pre).
    rewrite IH; [done|]. exact Hw.
Qed.

(** X13.  Whatever the format and the destination, and however it ends,
    [export] creates and removes no directory, removes no file and
    changes no file but the destination itself or, for a destination
    that is a directory, the files of the entries in it.  Without a
    destination ([None] or the empty text, which count the same) it
    writes nothing and returns a text. *)
Theorem export_frame journal format output fs :
  let fs' := (export journal format output fs).1 in
  dirs fs' = dirs fs /\ denied fs' = denied fs
  /\ dom (files fs) ⊆ dom (files fs')
  /\ (forall p,
        output <> Some p ->
        p ∉ map (entry_path (default [] output) format) (entries journal) ->
        files fs' !! p = files fs !! p)
  /\ (truthy output = false ->
      fs' = fs
      /\ exists text, (export journal format output fs).2 = inr text)
  /\ export journal format (Some []) fs = export journal format None fs.
Proof.
  cbv zeta. unfold export. destruct (maps format) as [to_format|].
  2: { cbn [fst snd]. repeat split; try done. by eauto. }
  destruct output as [[|c out]|]; cbn [truthy default from_option id andb].
  - cbn [fst snd]. repeat split; try done. by eauto.
  - destruct (isdir fs (c :: out)) eqn:Ed.
    + unfold write_files.
      pose proof (write_files_loop_frame (c :: out) format (entries journal) fs)
        as (F1 & F2 & F3 & F4).
      destruct (write_files_loop fs (c :: out) format (entries journal))
        as [fs1 [x|]]; cbn [fst snd] in *; repeat split; try done;
        intros p _ Hp; by apply F4.
    + destruct (write_file fs (c :: out) (to_format journal)) as [x|fs1] eqn:Ew.
      * destruct x; cbn [fst snd]; repeat split; done.
      * apply write_file_inr in Ew. subst fs1. cbn [fst snd dirs denied files].
        repeat split; try done.
        -- rewrite dom_insert. set_solver.
        -- intros p Hp _. rewrite lookup_insert_ne; [done|].
           intros <-. by apply Hp.
  - cbn [fst snd]. repeat split; try done. by eauto.
Qed.

Lemma written_cons path format e es m :
  written path format (e :: es) m =
    written path format es
      (<[entry_path path format e := default [] (file_content e format)]> m).
Proof. done. Qed.

Lemma written_notin path format es m p :
  p ∉ map (entry_path path format) es ->
  written path format es m !! p = m !! p.
Proof.
  revert m. induction es as [|e es IH]; intros m Hp; [done|].
  cbn [map] in Hp. apply not_elem_of_cons in Hp as [Hp1 Hp2].
  rewrite written_cons.
  rewrite IH by done. by rewrite lookup_insert_ne.
Qed.

Lemma written_last path format es m e :
  e ∈ es ->
  exists e', e' ∈ es
    /\ entry_path path format e' = entry_path path format e
    /\ written path format es m !! entry_path path format e
       = Some (default [] (file_content e' format)).
Proof.
  revert m e. induction es as [|e0 es IH]; intros m e He;
    [by apply elem_of_nil in He|].
  rewrite written_cons.
  destruct (decide (entry_path path format e
                      ∈ map (entry_path path format) es)) as [Hin|Hout].
  - apply (list_elem_of_fmap (entry_path path format)) in Hin as (e1 & Hp & He1).
    destruct (IH (<[entry_path path format e0 :=
                      default [] (file_content e0 format)]> m) e1 He1)
      as (e' & He' & Hp' & Hl).
    exists e'. split; [by right|]. split; [congruence|].
    by rewrite Hp.
  - rewrite written_notin by done.
    apply elem_of_cons in He as [->|He].
    + exists e0. split; [left|]. split; [done|]. by rewrite lookup_insert_eq.
    + exfalso. apply Hout. apply (list_elem_of_fmap (entry_path path format)).
      by exists e.
Qed.

Lemma written_NoDup path format es m e :
  NoDup (map (entry_path path format) es) -> e ∈ es ->
  written path format es m !! entry_path path format e
  = Some (default [] (file_content e format)).
Proof.
  revert m. induction es as [|e0 es IH]; intros m Hnd He;
    [by apply elem_of_nil in He|].
  cbn [map] in Hnd. apply NoDup_cons in Hnd as [Hout Hnd].
  rewrite written_cons.
  apply elem_of_cons in He as [->|He].
  - rewrite written_notin by done. by rewrite lookup_insert_eq.
  - by apply IH.
Qed.

(** X14.  For one of the five formats and a directory in which the file
    of every entry can be written, [write_files] writes for each entry
    the file [path/name], where the name is [make_filename] of the entry,
    and returns the message that names the directory.  The content is the
    JSON view of the entry followed by a line feed, its Markdown block or
    its canonical text.  No other file changes.  Entries whose names
    coincide share one file, which ends up with the content of one of
    them; when all names differ every entry has its own content in its
    own file. *)
Theorem write_files_writes journal path format fs :
  format ∈ formats ->
  Forall (fun e => isdir fs (entry_path path format e) = false
                   /\ denied fs !! entry_path path format e = None)
         (entries journal) ->
  exists fs',
    write_files journal path format fs
    = (fs', inr (py "[Journal exported individual files in " ++ path ++ py "]"))
    /\ dirs fs' = dirs fs /\ denied fs' = denied fs
    /\ (forall e,
          file_content e format =
            Some (if bool_decide (format = py "json")
                  then json_dumps (JDict (to_dict e)) ++ [NL]
                  else if bool_decide (format ∈ [py "md"; py "markdown"])
                  then Entry_to_md e
                  else __unicode__ e))
    /\ (forall p, p ∉ map (entry_path path format) (entries journal) ->
                  files fs' !! p = files fs !! p)
    /\ (forall e, e ∈ entries journal ->
          exists e', e' ∈ entries journal
            /\ entry_path path format e' = entry_path path format e
            /\ files fs' !! entry_path path format e = file_content e' format)
    /\ (NoDup (map (entry_path path format) (entries journal)) ->
        forall e, e ∈ entries journal ->
          files fs' !! entry_path path format e = file_content e format).
Proof.
  intros Hf Hw. eexists. unfold write_files.
  rewrite write_files_loop_ok by done. split; [reflexivity|].
  cbn [dirs denied files].
  assert (forall e, file_content e format
                    = Some (default [] (file_content e format))) as Hdef.
  { intros e. by rewrite (file_content_Some e format Hf). }
  split; [done|]. split; [done|].
  split; [intros e; by apply file_content_Some|].
  split; [intros p Hp; by apply written_notin|]. split.
  - intros e He.
    destruct (written_last path format (entries journal) (files fs) e He)
      as (e' & He' & Hp & Hl).
    exists e'. split; [done|]. split; [done|]. by rewrite Hl, <- Hdef.
  - intros Hnd e He. rewrite written_NoDup by done. by rewrite <- Hdef.
Qed.

(** X15.  [write_files] itself does not check the format.  Handed a
    format that is none of the five, it opens the file of the first
    entry, which is created or emptied, and then raises
    [UnboundLocalError], no content having been chosen; for a journal
    without entries it writes nothing and returns its message. *)
Theorem write_files_unknown_format journal path format fs e es :
  format ∉ formats ->
  entries journal = e :: es ->
  isdir fs (entry_path path format e) = false ->
  denied fs !! entry_path path format e = None ->
  write_files journal path format fs
  = ({| dirs := dirs fs;
        files := <[entry_path path format e := []]> (files fs);
        denied := denied fs |}, inl UnboundLocalError)
  /\ write_files {| entries := []; config := config journal |} path format fs
     = (fs, inr (py "[Journal exported individual files in " ++ path ++ py "]")).
Proof.
  intros Hf He H1 H2. split; [|done].
  unfold write_files. rewrite He. cbn [write_files_loop].
  fold (entry_path path format e).
  rewrite (file_content_None e format Hf). cbn [default].
  by rewrite write_file_ok.
Qed.

(** X16.  An error of the operating system is caught only for a
    destination that is a single file.  For a destination that is a
    directory, [export] raises the [IOError] of the first entry whose
    file cannot be written; the files of the entries before it stay
    written. *)
Theorem export_directory_raises journal format out fs pre e rest msg :
  format ∈ formats -> out <> [] -> isdir fs out = true ->
  entries journal = pre ++ e :: rest ->
  Forall (fun e => isdir fs (entry_path out format e) = false
                   /\ denied fs !! entry_path out format e = None) pre ->
  isdir fs (entry_path out format e) = false ->
  denied fs !! entry_path out format e = Some msg ->
  export journal format (Some out) fs
  = ({| dirs := dirs fs; files := written out format pre (files fs);
        denied := denied fs |},
     inl (IOError (entry_path out format e) msg)).
Proof.
  intros Hf Hne Hd He Hpre H1 H2. unfold export.
  rewrite (maps_Some format Hf).
  destruct out as [|c out]; [done|].
  cbn [truthy default from_option id andb]. rewrite Hd.
  unfold write_files. rewrite He, write_files_loop_app by done.
  cbn [write_files_loop]. fold (entry_path (c :: out) format e).
  erewrite write_file_denied; [done|exact H1|exact H2].
Qed.


(** *** Every stored tag is a tag of the text *)

Lemma takewhile_stop {A} (p : A -> bool) (l : list A) :
  exists rest, l = takewhile p l ++ rest
               /\ forall c rest', rest = c :: rest' -> p c = false.
Proof.
  induction l as [|x l (rest & IH & Hstop)]; simpl.
  - exists []. split; [done|]. intros c rest' H. discriminate H.
  - destruct (p x) eqn:E.
    + exists rest. split; [simpl; congruence|done].
    + exists (x :: l). split; [done|]. by intros c rest' [= <- <-].
Qed.

Lemma match_here_inv cs text tok :
  match_here cs text = Some tok ->
  exists w s run rest,
    text = w :: s :: run ++ rest /\ tok = s :: run
    /\ isspace w = true /\ set_matches cs s = true
    /\ run <> [] /\ Forall (fun c => tagchar c = true) run
    /\ forall c rest', rest = c :: rest' -> tagchar c = false.
Proof.
  destruct text as [|w [|s rest]]; simpl; try done.
  destruct (isspace w) eqn:Ew; simpl; [|done].
  destruct (set_matches cs s) eqn:Es; [|done].
  destruct (takewhile_stop tagchar rest) as (rest' & Hr & Hstop).
  pose proof (takewhile_all tagchar rest) as Hall.
  destruct (takewhile tagchar rest) as [|x run] eqn:Et; [done|].
  intros [= <-]. exists w, s, (x :: run), rest'.
  split; [by rewrite Hr at 1|done].
Qed.

Lemma scan_sound cs text skip tok :
  tok ∈ scan cs skip text ->
  exists pre rest, text = pre ++ rest /\ match_here cs rest = Some tok.
Proof.
  revert skip. induction text as [|c text IH]; intros skip H;
    [by apply elem_of_nil in H|].
  cbn [scan] in H. destruct skip as [|k].
  - destruct (match_here cs (c :: text)) as [tok0|] eqn:Em.
    + apply elem_of_cons in H as [->|H]; [by exists [], (c :: text)|].
      destruct (IH _ H) as (pre & rest & -> & Hm). by exists (c :: pre), rest.
    + destruct (IH _ H) as (pre & rest & -> & Hm). by exists (c :: pre), rest.
  - destruct (IH _ H) as (pre & rest & -> & Hm). by exists (c :: pre), rest.
Qed.

(** X18.  Whatever the symbols are, every tag that [parse_tags] stores
    stands in the lower-cased text [" " + title + " " + body] right after
    a whitespace character, begins with a character of the symbol set,
    goes on with at least one tag character and ends where the tag
    characters end. *)
Theorem parse_tags_sound cfg title body cs :
  tag_regex (tagsymbols cfg) = Parsed cs ->
  exists found,
    parse_tags cfg title body = Parsed found
    /\ Forall (fun tok =>
         exists pre w s run post,
           map lower (py " " ++ title ++ py " " ++ body)
           = pre ++ w :: s :: run ++ post
           /\ tok = s :: run
           /\ isspace w = true /\ set_matches cs s = true
           /\ run <> [] /\ Forall (fun c => tagchar c = true) run
           /\ forall c post', post = c :: post' -> tagchar c = false)
         found.
Proof.
  intros E. unfold parse_tags. rewrite E. eexists. split; [reflexivity|].
  apply Forall_forall. intros tok Htok. unfold findall in Htok.
  apply scan_sound in Htok as (pre & rest & Ht & Hm).
  apply match_here_inv in Hm as (w & s & run & post & -> & -> & Hm).
  exists pre, w, s, run, post. split; [|done].
  rewrite <- Ht. unfold get_fulltext. by cbn [join].
Qed.

End Jrnl.

(** ** The theorems at work

    The development run on 7-bit text: the tables [ascii_isspace],
    [ascii_isalnum] and [ascii_lower], [strftime_C], [slugify_ascii],
    [fill_unbroken], and todos that are a mark of completion. *)

Abbreviation lunch :=
  {| journal_config := sample_config; date := sample_date 2023 1 5;
     title := py "Lunch @work"; body := py "Soup."; tags := [py "@work"];
     todos := [false; true]; starred := false; modified := false |}.

Abbreviation lunch_again :=
  {| journal_config := sample_config; date := sample_date 2023 1 5;
     title := [SP; SP] ++ py "Lunch @work" ++ [SP];
     body := py "Soup." ++ [NL];
     tags := []; todos := @nil bool; starred := false; modified := true |}.

Abbreviation locked :=
  {| journal_config := sample_config; date := sample_date 2023 1 20;
     title := py "Locked"; body := []; tags := [];
     todos := [false]; starred := true; modified := false |}.

Abbreviation next_year :=
  {| journal_config := sample_config; date := sample_date 2024 1 2;
     title := py "Resolutions"; body := []; tags := [];
     todos := @nil bool; starred := false; modified := false |}.

Abbreviation blank :=
  {| journal_config := sample_config; date := sample_date 2023 1 5;
     title := py "Lunch @work"; body := replicate 21 SP; tags := [];
     todos := @nil bool; starred := false; modified := false |}.

Ltac by_evaluation := apply (bool_decide_unpack _); vm_compute; exact I.





Lemma Entry_init_strips_witness :
  Entry_init ascii_isspace ascii_isalnum ascii_lower bool no_todos
    sample_config (sample_date 2023 1 5) None
    (py "Lunch @work" ++ [SP; NL]) (py "Soup." ++ [NL; NL]) true
  = Parsed {| journal_config := sample_config; date := sample_date 2023 1 5;
              title := py "Lunch @work"; body := py "Soup.";
              tags := [py "@work"]; todos := [];
              starred := true; modified := false |}
  /\ exists ws, py "Lunch @work" ++ [SP; NL] = py "Lunch @work" ++ ws
                /\ Forall (fun c => c = NL \/ c = SP) ws.
Proof.
  assert (Entry_init ascii_isspace ascii_isalnum ascii_lower bool no_todos
            sample_config (sample_date 2023 1 5) None
            (py "Lunch @work" ++ [SP; NL]) (py "Soup." ++ [NL; NL]) true
          = Parsed {| journal_config := sample_config;
                      date := sample_date 2023 1 5;
                      title := py "Lunch @work"; body := py "Soup.";
                      tags := [py "@work"]; todos := [];
                      starred := true; modified := false |}) as H
    by (vm_compute; reflexivity).
  split; [exact H|].
  exact (proj1 (Entry_init_strips ascii_isspace ascii_isalnum ascii_lower
                  bool no_todos _ _ _ _ _ _ _ H)).
Defined.

Lemma Entry_init_trailing_blanks_witness :
  Entry_init ascii_isspace ascii_isalnum ascii_lower bool no_todos
    sample_config (sample_date 2023 1 5) None
    (py "Lunch @work" ++ [SP; NL]) (py "Soup." ++ [NL; NL]) false
  = Entry_init ascii_isspace ascii_isalnum ascii_lower bool no_todos
      sample_config (sample_date 2023 1 5) None
      (py "Lunch @work") (py "Soup.") false.
Proof.
  refine (proj1 (Entry_init_trailing_blanks ascii_isspace ascii_isalnum
                   ascii_lower bool no_todos
                   sample_config (sample_date 2023 1 5) None
                   (py "Lunch @work") (py "Soup.") false [SP; NL] [NL; NL]
                   _ _)); by_evaluation.
Defined.

Lemma Entry_init_bad_range_witness :
  Entry_init ascii_isspace ascii_isalnum ascii_lower bool no_todos
    {| tagsymbols := py "z-a"; timeformat := py "%Y-%m-%d %H:%M";
       linewrap := 79 |}
    (sample_date 2023 1 5) None (py "Lunch @work") (py "Soup.") false
  = BadRange.
Proof.
  refine (proj2 (Entry_init_bad_range ascii_isspace ascii_isalnum ascii_lower
                   bool no_todos _ _ _ _ _ _ "a"%char "z"%char
                   _ _ _ _ _ _));
    first [reflexivity | by_evaluation].
Defined.

Lemma tag_regex_unescaped_witness :
  (exists cs, tag_regex (py "^@#") = Parsed cs
              /\ forall c, set_matches cs c = negb (char_in c (py "@#")))
  /\ exists cs, tag_regex (py "a-c") = Parsed cs
                /\ forall c, set_matches cs c = between "a"%char "c"%char c.
Proof.
  refine (tag_regex_unescaped (py "@#") "a"%char "c"%char _ _ _ _ _);
    first [reflexivity | by_evaluation].
Defined.


Lemma repr_respects_eq_witness :
  __repr__ ascii_isspace strftime_C bool lunch
  = __repr__ ascii_isspace strftime_C bool lunch_again.
Proof.
  refine (repr_respects_eq ascii_isspace strftime_C bool lunch lunch_again _).
  vm_compute. reflexivity.
Defined.

Lemma to_todo_list_sections_witness :
  exists pending completed,
    pending ++ completed
      ≡ₚ get_todos bool {| entries := [lunch; locked]; config := sample_config |}
    /\ Forall (fun t => t = false) pending
    /\ Forall (fun t => t = true) completed.
Proof.
  destruct (to_todo_list_sections bool (fun t => t) item_format
              {| entries := [lunch; locked]; config := sample_config |})
    as (pending & completed & _ & Hp & _ & _ & H1 & H2); [by_evaluation|].
  exists pending, completed. split; [exact Hp|]. split; [exact H1|exact H2].
Defined.

Lemma to_md_append_witness :
  to_md strftime_C bool
    {| entries := [lunch; locked; next_year]; config := sample_config |}
  = to_md strftime_C bool
      {| entries := [lunch; locked]; config := sample_config |}
      ++ [NL] ++ py "2024" ++ [NL] ++ py "====" ++ [NL] ++ [NL]
      ++ Entry_to_md strftime_C bool next_year.
Proof.
  refine (proj1 (to_md_append strftime_C bool sample_config [lunch]
                   locked next_year _) _ _).
  - repeat constructor; vm_compute; intros H; discriminate H.
  - vm_compute. intros H. discriminate H.
  - reflexivity.
Defined.

Lemma pprint_unwrapped_witness :
  pprint strftime_C fill_unbroken bool lunch false
  = __unicode__ strftime_C bool lunch
  /\ pprint strftime_C fill_unbroken bool blank false
     = __unicode__ strftime_C bool blank ++ [NL].
Proof.
  split.
  - exact (proj1 (pprint_unwrapped ascii_isspace ascii_isalnum ascii_lower
                    strftime_C fill_unbroken bool no_todos
                    lunch eq_refl eq_refl)).
  - exact (proj1 (pprint_unwrapped ascii_isspace ascii_isalnum ascii_lower
                    strftime_C fill_unbroken bool no_todos
                    blank eq_refl eq_refl)).
Defined.

Lemma write_files_writes_witness :
  exists fs',
    write_files strftime_C (fun _ => py "{}") bool JBool id slugify_ascii
      {| entries := [lunch; next_year]; config := sample_config |}
      (py "out") (py "md") sample_fs
    = (fs', inr (py "[Journal exported individual files in out]"))
    /\ dirs fs' = dirs sample_fs
    /\ files fs' !! py "out/2023-01-05_lunch--work.md"
       = Some (Entry_to_md strftime_C bool lunch).
Proof.
  destruct (write_files_writes strftime_C (fun _ => py "{}") bool JBool id
              slugify_ascii
              {| entries := [lunch; next_year]; config := sample_config |}
              (py "out") (py "md") sample_fs)
    as (fs' & Hw & Hd & _ & Hc & _ & _ & Hnd).
  - by_evaluation.
  - repeat constructor; vm_compute; reflexivity.
  - exists fs'. split; [exact Hw|]. split; [exact Hd|].
    specialize (Hnd ltac:(by_evaluation) lunch (list_elem_of_here _ _)).
    rewrite Hc in Hnd. exact Hnd.
Defined.

Lemma write_files_unknown_format_witness :
  write_files strftime_C (fun _ => py "{}") bool JBool id slugify_ascii
    {| entries := [lunch]; config := sample_config |}
    (py "out") (py "pdf") sample_fs
  = ({| dirs := dirs sample_fs;
        files := <[py "out/2023-01-05_lunch--work.pdf" := []]> (files sample_fs);
        denied := denied sample_fs |}, inl UnboundLocalError).
Proof.
  refine (proj1 (write_files_unknown_format strftime_C (fun _ => py "{}") bool
                   JBool id slugify_ascii
                   {| entries := [lunch]; config := sample_config |}
                   (py "out") (py "pdf") sample_fs lunch [] _ _ _ _));
    first [reflexivity | by_evaluation | vm_compute; reflexivity].
Defined.

Lemma export_directory_raises_witness :
  (export strftime_C (fun _ => py "{}") bool JBool id slugify_ascii
     (fun _ => [])
     {| entries := [lunch; locked; next_year]; config := sample_config |}
     (py "md") (Some (py "out")) sample_fs).2
  = inl (IOError (py "out/2023-01-20_locked.md") (py "Permission denied")).
Proof.
  rewrite (export_directory_raises strftime_C (fun _ => py "{}") bool JBool id
             slugify_ascii (fun _ => [])
             {| entries := [lunch; locked; next_year]; config := sample_config |}
             (py "md") (py "out") sample_fs [lunch] locked [next_year]
             (py "Permission denied")).
  - reflexivity.
  - by_evaluation.
  - by_evaluation.
  - vm_compute. reflexivity.
  - reflexivity.
  - repeat constructor; vm_compute; reflexivity.
  - vm_compute. reflexivity.
  - vm_compute. reflexivity.
Defined.


Lemma parse_tags_sound_witness :
  exists found,
    parse_tags ascii_isspace ascii_isalnum ascii_lower sample_config
      (py "Lunch @work") (py "Soup. @Home") = Parsed found
    /\ Forall (fun tok =>
         exists pre w s run post,
           map ascii_lower (py " " ++ py "Lunch @work" ++ py " " ++ py "Soup. @Home")
           = pre ++ w :: s :: run ++ post
           /\ tok = s :: run
           /\ ascii_isspace w = true
           /\ set_matches {| negated := false; items := [Lit "@"] |} s = true
           /\ run <> [] /\ Forall (fun c => tagchar ascii_isalnum c = true) run
           /\ forall c post', post = c :: post' -> tagchar ascii_isalnum c = false)
         found.
Proof.
  refine (parse_tags_sound ascii_isspace ascii_isalnum ascii_lower
            sample_config (py "Lunch @work") (py "Soup. @Home")
            {| negated := false; items := [Lit "@"] |} _).
  reflexivity.
Defined.
